(** * A retrieval-augmented chatbot: ingestion, vector store, agent, HTTP

    Shallow embedding of
      - [tools/vector-search.ts]   (class [VectorSearchTool]),
      - [workflows/document-processing.ts] (class [DocumentProcessingWorkflow]),
      - [agents/rag-agent.ts]      (class [RAGAgent]),
      - [index.ts]                 (the [POST /api/chat] handler).

    The program is glue around external services.  Every external call is
    a field of [Env] (what the service answers) and, for the network
    services, an entry appended to the [trace] of the [World].  The table
    [document_chunks] is the only state the program owns.

    Of the database server the model derives what the schema of
    [initializeDatabase] fixes (the primary key, [INTEGER], [vector(1536)],
    [ON CONFLICT], [ORDER BY ... LIMIT]); what depends on the server beyond
    that is a field of [Env]: whether a statement can be sent
    ([pool_connect]), what the server objects to in the parameters of a
    statement ([param_error]), which rows the scan of the ivfflat index
    reaches ([ivfflat_reaches]) and the operator [<=>]
    ([cosine_distance]). *)

From Stdlib Require Import QArith Qcanon.
From stdpp Require Import gmap strings list fin_maps sorting pretty numbers.

Local Open Scope string_scope.
Local Open Scope list_scope.
Local Open Scope Z_scope.

(** ** JavaScript errors and fallible results *)

(** A thrown value; [message] is [None] when the value has no [.message]. *)
Record JsError := { message : option string }.

Inductive result (A : Type) : Type :=
| Ok (a : A)
| Throw (e : JsError).
Arguments Ok {A} a.
Arguments Throw {A} e.

Definition newline : string := String (Ascii.ascii_of_nat 10) "".

(** [s.includes(sub)] *)
Fixpoint includes (s sub : string) : bool :=
  String.prefix sub s ||
  match s with
  | EmptyString => false
  | String _ s' => includes s' sub
  end.

(** [s.endsWith(suffix)] *)
Definition endsWith (s suffix : string) : bool :=
  let n := String.length s in
  let k := String.length suffix in
  (k <=? n)%nat && String.eqb (String.substring (n - k) k s) suffix.

(** ** Numbers of the server *)

(** A [double precision] as the server computes it and the driver hands it
    over: a rational, or NaN. *)
Inductive Float8 :=
| Num (q : Qc)
| NaN.

(** [1 - x] *)
Definition one_minus (x : Float8) : Float8 :=
  match x with
  | Num q => Num (1 - q)%Qc
  | NaN => NaN
  end.

(** The order of [ORDER BY] on [double precision]: NaN sorts after every
    number and beside itself. *)
Definition float8_le (a b : Float8) : Prop :=
  match a, b with
  | Num x, Num y => (x <= y)%Qc
  | _, NaN => True
  | NaN, Num _ => False
  end.

#[global] Instance float8_le_dec : RelDecision float8_le :=
  fun a b =>
    match a, b return Decision (float8_le a b) with
    | Num x, Num y => decide (x <= y)%Qc
    | Num _, NaN => left I
    | NaN, Num _ => right (fun H => H)
    | NaN, NaN => left I
    end.

(** [a] is at least as similar as [b]: the descending order of
    similarities, NaN coming after every number. *)
Definition similarity_ge (a b : Float8) : Prop :=
  match a, b with
  | Num x, Num y => (y <= x)%Qc
  | _, NaN => True
  | NaN, Num _ => False
  end.

(** ** types.ts *)

Record DocumentChunk := {
  chunk_id : string;
  chunk_content : string;
  chunk_document : string;
  chunk_page : Z;
  chunk_embedding : list Qc
}.

Record SearchResult := {
  sr_id : string;
  sr_content : string;
  sr_document : string;
  sr_page : Z;
  sr_similarity : Float8
}.

Inductive Role := user | assistant.

Record ChatMessage := {
  msg_role : Role;
  msg_content : string;
  msg_sources : option (list SearchResult)
}.

Inductive Status := processed | error.

Record ProcessedDocument := {
  pd_name : string;
  pd_chunks : nat;
  pd_status : Status
}.

(** ** The table [document_chunks]

    [id TEXT PRIMARY KEY, content TEXT NOT NULL, document TEXT NOT NULL,
     page INTEGER NOT NULL, embedding vector(1536)]: a finite map from the
    primary key to the other four columns. *)

Record Row := {
  row_content : string;
  row_document : string;
  row_page : Z;
  row_embedding : list Qc
}.

Definition vector_dimension : nat := 1536.

(** ** Requests sent to the external services *)

Record Message := { m_role : string; m_content : string }.

Record ChatParams := {
  cp_model : string;
  cp_messages : list Message;
  cp_max_tokens : Z;
  cp_temperature : Qc;
  cp_stream : bool
}.

(** One frame of a streamed completion: [choices[0]?.delta?.content]. *)
Record Delta := { delta_content : option string }.
Record Choice := { choice_delta : option Delta }.
Record StreamChunk := { choices : list Choice }.

(** A completion stream: the frames it yields and, possibly, the error it
    raises after them. *)
Record Stream := { frames : list StreamChunk; stream_error : option JsError }.

Record ChunkParams := {
  chunk_strategy : string;
  chunk_size : Z;
  chunk_overlap : Z
}.

(** A chunk of [MDocument.chunk]: its text and [metadata?.page]. *)
Record Chunk := { text : string; metadata_page : option Z }.

Record PdfData := { pdf_text : string; numpages : Z }.

Record ChunkMetadata := {
  md_id : string;
  md_text : string;
  md_document : string;
  md_page : Z;
  md_chunkIndex : nat
}.

(** An element of [vectors] in [vectorStore.upsert]; [vectorIds[index]] and
    [metadata[index]] are array reads, [None] standing for [undefined]. *)
Record VectorEntry := {
  ve_id : option string;
  ve_vector : list Qc;
  ve_metadata : option ChunkMetadata
}.

Record VectorQuery := {
  vq_indexName : string;
  vq_queryVector : list Qc;
  vq_topK : Z;
  vq_includeVector : bool;
  vq_minScore : Qc
}.

Record QueryResult := { qr_id : string; qr_score : Qc }.

Record IndexStats := { stats_dimension : Z; stats_count : Z; stats_metric : string }.

(** The statements [VectorSearchTool] sends through [pool.query]. *)
Inductive Sql :=
| SelectSimilar (embedding : list Qc) (limit : Z)
| UpsertChunk (chunk : DocumentChunk)
| CreateExtension
| CreateTable
| CreateIndex
| SelectDistinctDocument.

Inductive Call :=
| OpenAIEmbeddingsCreate (model input : string)
| AiEmbed (model value : string)
| OpenAIChatCompletionsCreate (params : ChatParams)
| PoolQuery (q : Sql)
| VectorCreateIndex (indexName : string) (dimension : Z)
| VectorUpsert (indexName : string) (vectors : list VectorEntry)
| VectorQueryCall (q : VectorQuery)
| VectorListIndexes
| VectorDescribeIndex (indexName : string).

(** ** The environment: what the external services answer *)

Record Env := {
  (* node:path and node:fs *)
  basename : string -> string -> string;
  join : string -> string -> string;
  readFileSync : string -> result string;
  readdirSync : string -> result (list string);
  (* pdf-parse and @mastra/rag *)
  pdfParse : string -> result PdfData;
  mdocument_chunk : string -> ChunkParams -> result (list Chunk);
  (* OpenAI, through the [ai] SDK and through the [openai] client *)
  ai_embed : string -> string -> result (list Qc);
  openai_embeddings_create : string -> string -> result (list (list Qc));
  openai_chat_completions_create : ChatParams -> result Stream;
  (* pg: whether a statement can be sent at all *)
  pool_connect : result unit;
  (* pgvector's [<=>], NaN on a vector without direction *)
  cosine_distance : list Qc -> list Qc -> Float8;
  (* LibSQLVector *)
  vector_createIndex : string -> Z -> result unit;
  vector_upsert : string -> list VectorEntry -> result (list string);
  vector_query : VectorQuery -> result (list QueryResult);
  vector_listIndexes : result (list string);
  vector_describeIndex : string -> result IndexStats;
  (* PostgreSQL: what the server objects to in the parameters of a
     statement for a reason the schema alone does not give: a text holding
     U+0000, a component outside [float4], a vector longer than the index
     takes or of another dimension than the index, a limit outside
     [bigint] *)
  param_error : Sql -> option JsError;
  (* pgvector: whether the scan of the ivfflat index on [embedding], for a
     query vector on a table, reaches the row of an id; every row when the
     planner scans the table instead *)
  ivfflat_reaches : list Qc -> gmap string Row -> string -> bool
}.

(** ** The world and the monad of effects *)

Record World := {
  document_chunks : gmap string Row;
  trace : list Call
}.

Definition M (A : Type) : Type := World -> result A * World.

Definition ret {A} (a : A) : M A := fun w => (Ok a, w).

Definition throw {A} (e : JsError) : M A := fun w => (Throw e, w).

Definition bind {A B} (m : M A) (k : A -> M B) : M B :=
  fun w =>
    match m w with
    | (Ok a, w') => k a w'
    | (Throw e, w') => (Throw e, w')
    end.

(** [try { m } catch (e) { h e }]: the writes of [m] are kept. *)
Definition try_catch {A} (m : M A) (h : JsError -> M A) : M A :=
  fun w =>
    match m w with
    | (Ok a, w') => (Ok a, w')
    | (Throw e, w') => h e w'
    end.

Definition lift {A} (r : result A) : M A := fun w => (r, w).

Definition call (c : Call) : M unit :=
  fun w => (Ok tt, {| document_chunks := document_chunks w; trace := trace w ++ [c] |}).

Definition get_table : M (gmap string Row) :=
  fun w => (Ok (document_chunks w), w).

Definition put_table (t : gmap string Row) : M unit :=
  fun w => (Ok tt, {| document_chunks := t; trace := trace w |}).

Declare Scope js_scope.
Delimit Scope js_scope with js.
Notation "x <- m ;; k" := (bind m (fun x => k))
  (at level 100, m at next level, right associativity) : js_scope.
Notation "m ;;; k" := (bind m (fun _ => k))
  (at level 100, right associativity) : js_scope.
Local Open Scope js_scope.

Section Program.

Variable env : Env.

(** ** tools/vector-search.ts: [VectorSearchTool] *)

Definition pg_error (msg : string) : JsError := {| message := Some msg |}.

(** [this.pool.query(...)]: the statement is sent; it is rejected when no
    connection can be had. *)
Definition pool_query (q : Sql) : M unit :=
  call (PoolQuery q) ;;; lift (pool_connect env).

(** Range of the SQL type [INTEGER]. *)
Definition pg_int4 (z : Z) : bool := (- 2 ^ 31 <=? z) && (z <? 2 ^ 31).

(** [embedding <=> $1] of a stored row. *)
Definition distance (q : list Qc) (r : string * Row) : Float8 :=
  cosine_distance env (row_embedding r.2) q.

(** [ORDER BY embedding <=> $1] compares rows by their distance. *)
Definition distance_le (q : list Qc) (r1 r2 : string * Row) : Prop :=
  float8_le (distance q r1) (distance q r2).

#[global] Instance distance_le_dec q : RelDecision (distance_le q) :=
  fun r1 r2 => decide (float8_le (distance q r1) (distance q r2)).

(** [SELECT id, content, document, page, 1 - (embedding <=> $1) as similarity] *)
Definition select_row (q : list Qc) (r : string * Row) : SearchResult :=
  {| sr_id := r.1;
     sr_content := row_content r.2;
     sr_document := row_document r.2;
     sr_page := row_page r.2;
     sr_similarity := one_minus (distance q r) |}.

Definition same_dimension (q : list Qc) (r : string * Row) : bool :=
  (length (row_embedding r.2) =? length q)%nat.

(** The rows the scan behind [ORDER BY embedding <=> $1] reaches: the
    column carries the ivfflat index of [initializeDatabase], whose scan
    visits the lists nearest to the query vector and not the whole table. *)
Definition reached (q : list Qc) (tbl : gmap string Row) : list (string * Row) :=
  List.filter (fun r => ivfflat_reaches env q tbl r.1) (map_to_list tbl).

(** The rows of [ORDER BY embedding <=> $1 LIMIT $2]: the rows reached,
    nearest first, [limit] at most. *)
Definition nearest (q : list Qc) (limit : Z) (tbl : gmap string Row)
  : list (string * Row) :=
  take (Z.to_nat limit) (merge_sort (distance_le q) (reached q tbl)).

(** The query of [searchSimilarChunks]. The server rejects an empty vector
    literal, a negative [LIMIT], [<=>] between vectors of different
    dimensions, and whatever else it objects to in the two parameters;
    otherwise it answers with the nearest rows its scan reaches.
    An omitted [limit] is 5. *)
Definition searchSimilarChunks (embedding : list Qc) (limit : option Z)
  : M (list SearchResult) :=
  let limit := default 5 limit in
  pool_query (SelectSimilar embedding limit) ;;;
  tbl <- get_table ;;
  if (length embedding =? 0)%nat
  then throw (pg_error "vector must have at least 1 dimension")
  else if limit <? 0 then throw (pg_error "LIMIT must not be negative")
  else if negb (forallb (same_dimension embedding) (map_to_list tbl))
  then throw (pg_error "different vector dimensions")
  else match param_error env (SelectSimilar embedding limit) with
       | Some e => throw e
       | None => ret (select_row embedding <$> nearest embedding limit tbl)
       end.

(** [INSERT ... ON CONFLICT (id) DO UPDATE SET content = EXCLUDED.content,
    embedding = EXCLUDED.embedding] on the table. *)
Definition upsert (chunk : DocumentChunk) (tbl : gmap string Row) : gmap string Row :=
  match tbl !! chunk_id chunk with
  | Some old =>
      <[chunk_id chunk :=
          {| row_content := chunk_content chunk;
             row_document := row_document old;
             row_page := row_page old;
             row_embedding := chunk_embedding chunk |}]> tbl
  | None =>
      <[chunk_id chunk :=
          {| row_content := chunk_content chunk;
             row_document := chunk_document chunk;
             row_page := chunk_page chunk;
             row_embedding := chunk_embedding chunk |}]> tbl
  end.

(** The server rejects a page outside [INTEGER], a vector that does not
    fit the column [vector(1536)], and whatever else it objects to in the
    five parameters; a rejected statement writes nothing. *)
Definition storeChunk (chunk : DocumentChunk) : M unit :=
  pool_query (UpsertChunk chunk) ;;;
  if negb (pg_int4 (chunk_page chunk))
  then throw (pg_error "integer out of range")
  else if negb (length (chunk_embedding chunk) =? vector_dimension)%nat
  then throw (pg_error "expected 1536 dimensions")
  else match param_error env (UpsertChunk chunk) with
       | Some e => throw e
       | None => tbl <- get_table ;; put_table (upsert chunk tbl)
       end.

(** When the statement of [storeChunk] is accepted: the database is
    reachable, the page fits [INTEGER], the vector fits [vector(1536)] and
    the server objects to nothing else in the parameters. *)
Definition storable (chunk : DocumentChunk) : Prop :=
  pool_connect env = Ok tt /\
  pg_int4 (chunk_page chunk) = true /\
  length (chunk_embedding chunk) = vector_dimension /\
  param_error env (UpsertChunk chunk) = None.

(** When the query of [searchSimilarChunks] is accepted: the database is
    reachable, the query vector is not empty, the limit is not negative,
    the stored vectors have the dimension of the query vector and the
    server objects to nothing else in the parameters. *)
Definition searchable (q : list Qc) (limit : Z) (tbl : gmap string Row) : Prop :=
  pool_connect env = Ok tt /\
  q ≠ [] /\
  0 <= limit /\
  forallb (same_dimension q) (map_to_list tbl) = true /\
  param_error env (SelectSimilar q limit) = None.

(** The three statements are [IF NOT EXISTS]; the table of the model is
    the table once it exists. *)
Definition initializeDatabase : M unit :=
  pool_query CreateExtension ;;;
  pool_query CreateTable ;;;
  pool_query CreateIndex.

Definition getProcessedDocuments : M (list string) :=
  pool_query SelectDistinctDocument ;;;
  tbl <- get_table ;;
  ret (remove_dups ((fun r : string * Row => row_document r.2) <$> map_to_list tbl)).

(** ** workflows/document-processing.ts: [DocumentProcessingWorkflow] *)

(** [`${documentName}-chunk-${i}`] *)
Definition chunkId (documentName : string) (i : nat) : string :=
  documentName +:+ "-chunk-" +:+ pretty i.

(** [chunk.metadata?.page || 1] *)
Definition page_or_1 (p : option Z) : Z :=
  match p with
  | Some p => if p =? 0 then 1 else p
  | None => 1
  end.

Definition embedding_model : string := "text-embedding-3-small".

(** [embed({ model: openai.embedding(model), value })] *)
Definition embed (model value : string) : M (list Qc) :=
  call (AiEmbed model value) ;;; lift (ai_embed env model value).

Definition createIndex (indexName : string) (dimension : Z) : M unit :=
  call (VectorCreateIndex indexName dimension) ;;;
  lift (vector_createIndex env indexName dimension).

Definition vectorStore_upsert (indexName : string) (vectors : list VectorEntry)
  : M (list string) :=
  call (VectorUpsert indexName vectors) ;;;
  lift (vector_upsert env indexName vectors).

(** [error.message?.includes(sub)], [undefined] being falsy. *)
Definition message_includes (e : JsError) (sub : string) : bool :=
  match message e with
  | Some m => includes m sub
  | None => false
  end.

(** The locals the chunk loop updates. *)
Record LoopState := {
  processedChunks : nat;
  embeddings : list (list Qc);
  metadata : list ChunkMetadata
}.

(** The object [chunkMetadata] of iteration [i]. *)
Definition chunkMetadata (documentName : string) (i : nat) (chunk : Chunk)
  : ChunkMetadata :=
  {| md_id := chunkId documentName i;
     md_text := text chunk;
     md_document := documentName;
     md_page := page_or_1 (metadata_page chunk);
     md_chunkIndex := i |}.

(** The object [documentChunk] of iteration [i]. *)
Definition documentChunk (documentName : string) (i : nat) (chunk : Chunk)
    (embedding : list Qc) : DocumentChunk :=
  {| chunk_id := chunkId documentName i;
     chunk_content := text chunk;
     chunk_document := documentName;
     chunk_page := page_or_1 (metadata_page chunk);
     chunk_embedding := embedding |}.

(** [embeddings.push], [metadata.push] and [processedChunks++]. *)
Definition pushed (st : LoopState) (embedding : list Qc) (md : ChunkMetadata)
  : LoopState :=
  {| processedChunks := S (processedChunks st);
     embeddings := embeddings st ++ [embedding];
     metadata := metadata st ++ [md] |}.

(** [for (let i = 0; i < chunks.length; i++)], entered at index [i] with
    the chunks from [i] on. *)
Fixpoint process_chunks (documentName : string) (chunks : list Chunk) (i : nat)
    (st : LoopState) : M LoopState :=
  match chunks with
  | [] => ret st
  | chunk :: rest =>
      embedding <- embed embedding_model (text chunk) ;;
      storeChunk (documentChunk documentName i chunk embedding) ;;;
      process_chunks documentName rest (S i)
        (pushed st embedding (chunkMetadata documentName i chunk))
  end.

Definition chunk_params : ChunkParams :=
  {| chunk_strategy := "markdown"; chunk_size := 1000; chunk_overlap := 200 |}.

(** The locals before the first iteration. *)
Definition initial_locals : LoopState :=
  {| processedChunks := 0; embeddings := []; metadata := [] |}.

(** The argument [vectors] of [vectorStore.upsert]: [vectorIds] is filled
    by the second loop, then read back by index together with [metadata]. *)
Definition vectors_of (documentName : string) (st : LoopState) : list VectorEntry :=
  let vectorIds := chunkId documentName <$> seq 0 (length (embeddings st)) in
  imap (fun index embedding =>
          {| ve_id := vectorIds !! index;
             ve_vector := embedding;
             ve_metadata := metadata st !! index |}) (embeddings st).

Definition processDocument_body (filePath : string) : M ProcessedDocument :=
  let documentName := basename env filePath ".pdf" in
  fileBuffer <- lift (readFileSync env filePath) ;;
  pdfData <- lift (pdfParse env fileBuffer) ;;
  chunks <- lift (mdocument_chunk env (pdf_text pdfData) chunk_params) ;;
  try_catch (createIndex documentName 1536)
    (fun indexError =>
       if negb (message_includes indexError "already exists")
       then throw indexError
       else ret tt) ;;;
  st <- process_chunks documentName chunks 0 initial_locals ;;
  vectorStore_upsert documentName (vectors_of documentName st) ;;;
  ret {| pd_name := documentName;
         pd_chunks := processedChunks st;
         pd_status := processed |}.

Definition processDocument (filePath : string) : M ProcessedDocument :=
  try_catch (processDocument_body filePath)
    (fun _ => ret {| pd_name := basename env filePath ".pdf";
                     pd_chunks := 0;
                     pd_status := error |}).

(** [for (const file of pdfFiles)]: [results] is declared outside the
    [try], so what was pushed survives a throw. The pause of 100 ms between
    two files has no effect on the world and is left out. *)
Fixpoint process_files (documentsDir : string) (pdfFiles : list string)
    (results : list ProcessedDocument) (w : World)
  : result unit * list ProcessedDocument * World :=
  match pdfFiles with
  | [] => (Ok tt, results, w)
  | file :: rest =>
      let filePath := join env documentsDir file in
      match processDocument filePath w with
      | (Ok r, w') => process_files documentsDir rest (results ++ [r]) w'
      | (Throw e, w') => (Throw e, results, w')
      end
  end.

Definition processAllDocuments (documentsDir : string) : M (list ProcessedDocument) :=
  fun w =>
    match readdirSync env documentsDir with
    | Throw _ => (Ok [], w)
    | Ok files =>
        let pdfFiles := List.filter (fun file => endsWith file ".pdf") files in
        let '(_, results, w') := process_files documentsDir pdfFiles [] w in
        (Ok results, w')
    end.

Definition vectorStore_query (q : VectorQuery) : M (list QueryResult) :=
  call (VectorQueryCall q) ;;; lift (vector_query env q).

Definition searchSimilarContent (query indexName : string) (limit : option Z)
  : M (list QueryResult) :=
  let limit := default 5 limit in
  try_catch
    (embedding <- embed embedding_model query ;;
     vectorStore_query
       {| vq_indexName := indexName;
          vq_queryVector := embedding;
          vq_topK := limit;
          vq_includeVector := false;
          vq_minScore := 0%Qc |})
    (fun _ => ret []).

Definition listIndexes : M (list string) :=
  try_catch (call VectorListIndexes ;;; lift (vector_listIndexes env))
    (fun _ => ret []).

(** [null] is [None]. *)
Definition getIndexStats (indexName : string) : M (option IndexStats) :=
  try_catch
    (call (VectorDescribeIndex indexName) ;;;
     stats <- lift (vector_describeIndex env indexName) ;;
     ret (Some stats))
    (fun _ => ret None).

(** ** agents/rag-agent.ts: [RAGAgent] *)

Definition system_prompt : string :=
  "You are a knowledgeable financial analyst specializing in Warren Buffett's investment philosophy and Berkshire Hathaway's business strategy. Your expertise comes from analyzing years of Berkshire Hathaway annual shareholder letters.

Core Responsibilities:
- Answer questions about Warren Buffett's investment principles and philosophy
- Provide insights into Berkshire Hathaway's business strategies and decisions
- Reference specific examples from the shareholder letters when appropriate
- Maintain context across conversations for follow-up questions

Guidelines:
- Always ground your responses in the provided shareholder letter content
- Quote directly from the letters when relevant, with proper citations
- If information isn't available in the documents, clearly state this limitation
- Provide year-specific context when discussing how views or strategies evolved
- For numerical data or specific acquisitions, cite the exact source letter and year
- Explain complex financial concepts in accessible terms while maintaining accuracy

Response Format:
- Provide comprehensive, well-structured answers
- Include relevant quotes from the letters with year attribution
- List source documents used for your response
- For follow-up questions, reference previous conversation context appropriately

Remember: Your authority comes from the shareholder letters. Stay grounded in this source material and be transparent about the scope and limitations of your knowledge.".

Definition query_embedding_model : string := "text-embedding-ada-002".

Record ChatResult := {
  response : string;
  sources : list SearchResult
}.

(** A thrown [TypeError]: reading a property of [undefined]. *)
Definition type_error : JsError :=
  {| message := Some "Cannot read properties of undefined" |}.

(** [`From ${chunk.document}, page ${chunk.page}:\n${chunk.content}`] *)
Definition context_entry (chunk : SearchResult) : string :=
  "From " +:+ sr_document chunk +:+ ", page " +:+ pretty (sr_page chunk) +:+ ":"
    +:+ newline +:+ sr_content chunk.

Definition build_context (relevantChunks : list SearchResult) : string :=
  String.concat (newline +:+ newline) (context_entry <$> relevantChunks).

Definition role_name (r : Role) : string :=
  match r with
  | user => "user"
  | assistant => "assistant"
  end.

Definition build_messages (userMessage : string)
    (conversationHistory : list ChatMessage) (context : string) : list Message :=
  [{| m_role := "system"; m_content := system_prompt |}]
  ++ ((fun msg => {| m_role := role_name (msg_role msg);
                     m_content := msg_content msg |}) <$> conversationHistory)
  ++ [{| m_role := "user";
         m_content :=
           "Context from Berkshire Hathaway shareholder letters:" +:+ newline
             +:+ context +:+ newline +:+ newline +:+ "Question: " +:+ userMessage |}].

Definition completion_params (messages : list Message) : ChatParams :=
  {| cp_model := "gpt-4o";
     cp_messages := messages;
     cp_max_tokens := 1000;
     cp_temperature := Q2Qc (7 # 10);
     cp_stream := true |}.

(** [chunk.choices[0]?.delta?.content || ''] *)
Definition frame_content (chunk : StreamChunk) : string :=
  match choices chunk with
  | choice :: _ =>
      match choice_delta choice with
      | Some delta => default "" (delta_content delta)
      | None => ""
      end
  | [] => ""
  end.

(** [for await (const chunk of completion) response += content] *)
Definition read_stream (completion : Stream) : M string :=
  let response :=
    foldl (fun response chunk => response +:+ frame_content chunk) ""
      (frames completion) in
  match stream_error completion with
  | Some e => throw e
  | None => ret response
  end.

Definition generateResponse (userMessage : string)
    (conversationHistory : list ChatMessage) : M ChatResult :=
  call (OpenAIEmbeddingsCreate query_embedding_model userMessage) ;;;
  data <- lift (openai_embeddings_create env query_embedding_model userMessage) ;;
  match data with
  | [] => throw type_error
  | queryEmbedding :: _ =>
      relevantChunks <- searchSimilarChunks queryEmbedding (Some 5) ;;
      let context := build_context relevantChunks in
      let messages := build_messages userMessage conversationHistory context in
      call (OpenAIChatCompletionsCreate (completion_params messages)) ;;;
      completion <- lift (openai_chat_completions_create env
                            (completion_params messages)) ;;
      response <- read_stream completion ;;
      ret {| response := response; sources := relevantChunks |}
  end.

(** ** index.ts: the handler of [POST /api/chat] *)

(** What a field of a JSON body can be; [JUndefined] is an absent field,
    [JObject] any object or array. *)
Inductive JsValue :=
| JUndefined
| JNull
| JBool (b : bool)
| JNumber (n : Qc)
| JString (s : string)
| JObject.

Definition truthy (v : JsValue) : bool :=
  match v with
  | JUndefined | JNull => false
  | JBool b => b
  | JNumber n => negb (bool_decide (n = 0%Qc))
  | JString s => negb (String.eqb s "")
  | JObject => true
  end.

Definition typeof (v : JsValue) : string :=
  match v with
  | JUndefined => "undefined"
  | JNull => "object"
  | JBool _ => "boolean"
  | JNumber _ => "number"
  | JString _ => "string"
  | JObject => "object"
  end.

Record ChatRequestBody := {
  body_message : JsValue;
  body_conversationHistory : option (list ChatMessage)
}.

Record Request := {
  req_body : ChatRequestBody;
  req_accept : option string
}.

(** The bodies the handler sends; their [timestamp] field is left out. *)
Inductive ResponseBody :=
| ErrorJson (error : string) (details : option string)
| ChatJson (response : string) (sources : list SearchResult)
| EventStream (chunk : string) (done : bool) (sources : list SearchResult).

Record Response := {
  res_status : Z;
  res_body : ResponseBody
}.

(** [app.post('/api/chat', ...)]. [req.body] is an object, as
    [express.json()] leaves it. Nothing is written to the response before
    [generateResponse] returns, so [res.headersSent] is false in the
    [catch] and the answer there is the 500. *)
Definition chat_handler (req : Request) : M Response :=
  try_catch
    (let message := body_message (req_body req) in
     let conversationHistory :=
       default [] (body_conversationHistory (req_body req)) in
     if negb (truthy message) || negb (String.eqb (typeof message) "string")
     then ret {| res_status := 400;
                 res_body :=
                   ErrorJson "Invalid request: message is required and must be a string"
                             None |}
     else
       match message with
       | JString message =>
           if negb (bool_decide (req_accept req = Some "text/event-stream"))
           then
             r <- generateResponse message conversationHistory ;;
             ret {| res_status := 200;
                    res_body := ChatJson (response r) (sources r) |}
           else
             r <- generateResponse message conversationHistory ;;
             ret {| res_status := 200;
                    res_body := EventStream (response r) true (sources r) |}
       | _ => throw type_error
       end)
    (fun error =>
       ret {| res_status := 500;
              res_body :=
                ErrorJson "Failed to generate response"
                          (Some (default "Unknown error" (message error))) |}).

End Program.

(** ** Reading the trace *)

(** The chunk a call hands to the table, when the call is an upsert. *)
Definition stored_chunk (c : Call) : option DocumentChunk :=
  match c with
  | PoolQuery (UpsertChunk chunk) => Some chunk
  | _ => None
  end.

(** The ids ingestion produced, in the order it produced them. *)
Definition stored_ids (t : list Call) : list string :=
  chunk_id <$> omap stored_chunk t.

(** The model and the input of an embedding call, when the call is one. *)
Definition embedding_call (c : Call) : option (string * string) :=
  match c with
  | OpenAIEmbeddingsCreate model input => Some (model, input)
  | AiEmbed model value => Some (model, value)
  | _ => None
  end.

Definition embedding_calls (t : list Call) : list (string * string) :=
  omap embedding_call t.

(** The models the embedding calls of a trace name. *)
Definition embedding_models (t : list Call) : list string :=
  fst <$> embedding_calls t.

(** The ids handed to [vectorStore.upsert]. *)
Definition upserted_ids (c : Call) : list (option string) :=
  match c with
  | VectorUpsert _ vectors => ve_id <$> vectors
  | _ => []
  end.

Definition vector_ids (t : list Call) : list (option string) :=
  t ≫= upserted_ids.

(** The world after the calls [t] were made. *)
Definition logged (w : World) (t : list Call) : World :=
  {| document_chunks := document_chunks w; trace := trace w ++ t |}.

(** The chunks of a file: read, parsed, chunked. *)
Definition chunks_of (env : Env) (filePath : string) : result (list Chunk) :=
  match readFileSync env filePath with
  | Ok fileBuffer =>
      match pdfParse env fileBuffer with
      | Ok pdfData => mdocument_chunk env (pdf_text pdfData) chunk_params
      | Throw e => Throw e
      end
  | Throw e => Throw e
  end.

(** The runs of the chunk loop, one constructor per way an iteration ends. *)
Inductive loop_run (env : Env) (documentName : string)
  : list Chunk -> nat -> LoopState -> World -> result LoopState -> World -> Prop :=
| loop_exit i st w :
    loop_run env documentName [] i st w (Ok st) w
| loop_embed_throws chunk rest i st w e :
    ai_embed env embedding_model (text chunk) = Throw e ->
    loop_run env documentName (chunk :: rest) i st w (Throw e)
      (logged w [AiEmbed embedding_model (text chunk)])
| loop_store_throws chunk rest i st w embedding e :
    ai_embed env embedding_model (text chunk) = Ok embedding ->
    ~ storable env (documentChunk documentName i chunk embedding) ->
    loop_run env documentName (chunk :: rest) i st w (Throw e)
      (logged w [AiEmbed embedding_model (text chunk);
                 PoolQuery (UpsertChunk (documentChunk documentName i chunk embedding))])
| loop_next chunk rest i st w embedding r w' :
    ai_embed env embedding_model (text chunk) = Ok embedding ->
    storable env (documentChunk documentName i chunk embedding) ->
    loop_run env documentName rest (S i)
      (pushed st embedding (chunkMetadata documentName i chunk))
      {| document_chunks :=
           upsert (documentChunk documentName i chunk embedding) (document_chunks w);
         trace :=
           trace w ++
             [AiEmbed embedding_model (text chunk);
              PoolQuery (UpsertChunk (documentChunk documentName i chunk embedding))] |}
      r w' ->
    loop_run env documentName (chunk :: rest) i st w r w'.

(** [createIndex] returned, or threw an error the program lets pass. *)
Definition index_ready (env : Env) (documentName : string) : Prop :=
  vector_createIndex env documentName 1536 = Ok tt \/
  exists e, vector_createIndex env documentName 1536 = Throw e /\
            message_includes e "already exists" = true.

(** Every chunk of a file gets through the chunk loop: the file is read,
    parsed and chunked, the vector index is ready, every chunk is embedded
    and the table accepts its statement.  What [vectorStore.upsert] answers
    afterwards is no part of it. *)
Definition stores_all (env : Env) (filePath : string) (chunks : list Chunk) : Prop :=
  chunks_of env filePath = Ok chunks /\
  index_ready env (basename env filePath ".pdf") /\
  forall j chunk,
    chunks !! j = Some chunk ->
    exists embedding,
      ai_embed env embedding_model (text chunk) = Ok embedding /\
      storable env (documentChunk (basename env filePath ".pdf") j chunk embedding).

(** The runs of the body of [processDocument], one constructor per exit. *)
Inductive body_run (env : Env) (filePath : string) (w : World)
  : result ProcessedDocument -> World -> Prop :=
| body_unreadable e :
    chunks_of env filePath = Throw e ->
    body_run env filePath w (Throw e) w
| body_index_throws chunks e :
    chunks_of env filePath = Ok chunks ->
    vector_createIndex env (basename env filePath ".pdf") 1536 = Throw e ->
    message_includes e "already exists" = false ->
    body_run env filePath w (Throw e)
      (logged w [VectorCreateIndex (basename env filePath ".pdf") 1536])
| body_loop_throws chunks e wl :
    chunks_of env filePath = Ok chunks ->
    index_ready env (basename env filePath ".pdf") ->
    loop_run env (basename env filePath ".pdf") chunks 0 initial_locals
      (logged w [VectorCreateIndex (basename env filePath ".pdf") 1536])
      (Throw e) wl ->
    body_run env filePath w (Throw e) wl
| body_upsert_throws chunks st wl e :
    chunks_of env filePath = Ok chunks ->
    index_ready env (basename env filePath ".pdf") ->
    loop_run env (basename env filePath ".pdf") chunks 0 initial_locals
      (logged w [VectorCreateIndex (basename env filePath ".pdf") 1536])
      (Ok st) wl ->
    vector_upsert env (basename env filePath ".pdf")
      (vectors_of (basename env filePath ".pdf") st) = Throw e ->
    body_run env filePath w (Throw e)
      (logged wl [VectorUpsert (basename env filePath ".pdf")
                    (vectors_of (basename env filePath ".pdf") st)])
| body_processed chunks st wl ids :
    chunks_of env filePath = Ok chunks ->
    index_ready env (basename env filePath ".pdf") ->
    loop_run env (basename env filePath ".pdf") chunks 0 initial_locals
      (logged w [VectorCreateIndex (basename env filePath ".pdf") 1536])
      (Ok st) wl ->
    vector_upsert env (basename env filePath ".pdf")
      (vectors_of (basename env filePath ".pdf") st) = Ok ids ->
    body_run env filePath w
      (Ok {| pd_name := basename env filePath ".pdf";
             pd_chunks := processedChunks st;
             pd_status := processed |})
      (logged wl [VectorUpsert (basename env filePath ".pdf")
                    (vectors_of (basename env filePath ".pdf") st)]).

(** The record a failed document is reported with. *)
Definition error_record (env : Env) (filePath : string) : ProcessedDocument :=
  {| pd_name := basename env filePath ".pdf"; pd_chunks := 0; pd_status := error |}.

(** What [processAllDocuments] says of one file. *)
Definition reported (env : Env) (documentsDir file : string)
    (pd : ProcessedDocument) : Prop :=
  pd_name pd = basename env (join env documentsDir file) ".pdf" /\
  (pd_status pd = error -> pd_chunks pd = 0%nat) /\
  exists w w', processDocument env (join env documentsDir file) w = (Ok pd, w').

(** The answer of the chat handler to a request without a usable message. *)
Definition invalid_request : Response :=
  {| res_status := 400;
     res_body :=
       ErrorJson "Invalid request: message is required and must be a string" None |}.

(** The row [storeChunk] leaves under the id of [chunk] when a row [old]
    was there. *)
Definition overwritten (chunk : DocumentChunk) (old : Row) : Row :=
  {| row_content := chunk_content chunk;
     row_document := row_document old;
     row_page := row_page old;
     row_embedding := chunk_embedding chunk |}.

(** Two environments that read, parse, chunk and embed alike; they may
    differ in everything else. *)
Record same_content (env1 env2 : Env) : Prop := {
  same_basename : forall p ext, basename env2 p ext = basename env1 p ext;
  same_readFileSync : forall p, readFileSync env2 p = readFileSync env1 p;
  same_pdfParse : forall b, pdfParse env2 b = pdfParse env1 b;
  same_mdocument_chunk :
    forall t p, mdocument_chunk env2 t p = mdocument_chunk env1 t p;
  same_ai_embed : forall m v, ai_embed env2 m v = ai_embed env1 m v
}.

(** ** index.ts: the document endpoints and the start-up *)

(** The bodies of the two document endpoints; their [timestamp] field is
    left out. *)
Inductive ApiBody :=
| DocumentsJson (documents : list string) (count : nat)
| ProcessingJson (message : string) (results : list ProcessedDocument)
| DirectoryMissingJson (error : string) (path : string)
| FailureJson (error : string) (details : string).

Record ApiResponse := {
  api_status : Z;
  api_body : ApiBody
}.

(** What [index.ts] reads of the place it runs in: [__dirname] and
    [fs.existsSync]. *)
Record Host := {
  dirname : string;
  existsSync : string -> bool
}.

Section Server.

Variable env : Env.
Variable host : Host.



(** [app.post('/api/process-documents', ...)] *)
Definition process_documents_handler : M ApiResponse :=
  try_catch
    (let documentsDir := join env (dirname host) "documents" in
     if negb (existsSync host documentsDir)
     then ret {| api_status := 400;
                 api_body :=
                   DirectoryMissingJson "Documents directory not found"
                                        documentsDir |}
     else
       results <- processAllDocuments env documentsDir ;;
       ret {| api_status := 200;
              api_body := ProcessingJson "Document processing completed" results |})
    (fun error =>
       ret {| api_status := 500;
              api_body :=
                FailureJson "Failed to process documents"
                            (default "Unknown error" (message error)) |}).

End Server.

(** ** Predicates on the table *)

(** Every row sits under an id made of its own [document] column. *)
Definition well_keyed (tbl : gmap string Row) : Prop :=
  forall id row, tbl !! id = Some row -> exists i, id = chunkId (row_document row) i.

(** The row a chunk becomes when its id is new. *)
Definition inserted (chunk : DocumentChunk) : Row :=
  {| row_content := chunk_content chunk;
     row_document := chunk_document chunk;
     row_page := chunk_page chunk;
     row_embedding := chunk_embedding chunk |}.

(** What a chat answer carries, whatever its framing. *)
Definition payload (b : ResponseBody) : option (string * list SearchResult) :=
  match b with
  | ChatJson response sources => Some (response, sources)
  | EventStream chunk _ sources => Some (chunk, sources)
  | ErrorJson _ _ => None
  end.

(** The rows the chat path retrieves for the query vector [q]. *)
Definition top5 (env : Env) (q : list Qc) (tbl : gmap string Row) : list SearchResult :=
  select_row env q <$> nearest env q 5 tbl.

(** The one prompt of the chat path. *)
Definition prompt (env : Env) (userMessage : string)
    (conversationHistory : list ChatMessage) (q : list Qc) (tbl : gmap string Row)
  : ChatParams :=
  completion_params
    (build_messages userMessage conversationHistory (build_context (top5 env q tbl))).

(** The character [-]. *)
Definition dash : Ascii.ascii := Ascii.ascii_of_nat 45.

(** ** A concrete environment *)

Module Demo.

(** The last segment of a path. *)
Fixpoint last_segment (p cur : string) : string :=
  match p with
  | EmptyString => cur
  | String c rest =>
      if Ascii.eqb c (Ascii.ascii_of_nat 47) then last_segment rest ""
      else last_segment rest (cur +:+ String c "")
  end.

Definition basename (p ext : string) : string :=
  let b := last_segment p "" in
  if endsWith b ext && (String.length ext <? String.length b)%nat
  then String.substring 0 (String.length b - String.length ext) b
  else b.

Definition join (dir file : string) : string := dir +:+ "/" +:+ file.

(** A directory with two PDFs, one of them broken, and a text file. *)
Definition files : list (string * string) :=
  [("docs/1977.pdf", "%PDF float insurance");
   ("docs/broken.pdf", "not a pdf");
   ("docs/notes.txt", "plain text")].

Definition readFileSync (p : string) : result string :=
  match List.find (fun f => String.eqb f.1 p) files with
  | Some f => Ok f.2
  | None => Throw {| message := Some "ENOENT: no such file or directory" |}
  end.

Definition readdirSync (dir : string) : result (list string) :=
  if String.eqb dir "docs"
  then Ok ["1977.pdf"; "broken.pdf"; "notes.txt"]
  else Throw {| message := Some "ENOENT: no such file or directory" |}.

Definition pdfParse (buffer : string) : result PdfData :=
  if String.prefix "%PDF " buffer
  then Ok {| pdf_text := String.substring 5 (String.length buffer - 5) buffer;
             numpages := 1 |}
  else Throw {| message := Some "Invalid PDF structure" |}.

(** One chunk per word. *)
Definition mdocument_chunk (t : string) (_ : ChunkParams) : result (list Chunk) :=
  Ok ((fun w => {| text := w; metadata_page := None |}) <$> String.words t).

(** The embedding of a text: the unit vector along the axis its length
    names. *)
Definition vector_of (s : string) : list Qc :=
  let k := (String.length s mod 1536)%nat in
  replicate k 0%Qc ++ 1%Qc :: replicate (1535 - k) 0%Qc.

Definition ai_embed (_ value : string) : result (list Qc) := Ok (vector_of value).

Definition openai_embeddings_create (_ input : string) : result (list (list Qc)) :=
  Ok [vector_of input].

Definition openai_chat_completions_create (_ : ChatParams) : result Stream :=
  Ok {| frames :=
          [ {| choices := [ {| choice_delta := Some {| delta_content := Some "Float " |} |} ] |};
            {| choices := [ {| choice_delta := Some {| delta_content := Some "is money held." |} |} ] |};
            {| choices := [] |} ];
        stream_error := None |}.

(** [<=>] on the vectors of [vector_of], which have length one: one minus
    the dot product. *)
Definition cosine_distance (a b : list Qc) : Float8 :=
  Num (1 - foldr Qcplus 0 (zip_with Qcmult a b))%Qc.

(** A server with no further objection, and a scan that reaches every row. *)
Definition param_error (_ : Sql) : option JsError := None.

Definition ivfflat_reaches (_ : list Qc) (_ : gmap string Row) (_ : string) : bool :=
  true.

Definition stats : IndexStats :=
  {| stats_dimension := 1536; stats_count := 0; stats_metric := "cosine" |}.

Definition env : Env :=
  Build_Env basename join readFileSync readdirSync pdfParse mdocument_chunk
    ai_embed openai_embeddings_create openai_chat_completions_create
    (Ok tt) cosine_distance
    (fun _ _ => Ok tt) (fun _ vectors => Ok (omap ve_id vectors))
    (fun _ => Ok []) (Ok []) (fun _ => Ok stats)
    param_error ivfflat_reaches.

Definition service_down : JsError := {| message := Some "503 Service Unavailable" |}.

(** The same environment with the OpenAI embedding endpoint down. *)
Definition env_openai_down : Env :=
  Build_Env basename join readFileSync readdirSync pdfParse mdocument_chunk
    (fun _ _ => Throw service_down) (fun _ _ => Throw service_down)
    openai_chat_completions_create
    (Ok tt) cosine_distance
    (fun _ _ => Ok tt) (fun _ vectors => Ok (omap ve_id vectors))
    (fun _ => Ok []) (Ok []) (fun _ => Ok stats)
    param_error ivfflat_reaches.

(** The same environment with the database unreachable. *)
Definition env_pg_down : Env :=
  Build_Env basename join readFileSync readdirSync pdfParse mdocument_chunk
    ai_embed openai_embeddings_create openai_chat_completions_create
    (Throw {| message := Some "connect ECONNREFUSED" |}) cosine_distance
    (fun _ _ => Ok tt) (fun _ vectors => Ok (omap ve_id vectors))
    (fun _ => Ok []) (Ok []) (fun _ => Ok stats)
    param_error ivfflat_reaches.

Definition empty_world : World := {| document_chunks := ∅; trace := [] |}.

Definition a_chunk : DocumentChunk :=
  {| chunk_id := "1977-chunk-0";
     chunk_content := "float";
     chunk_document := "1977";
     chunk_page := 1;
     chunk_embedding := vector_of "float" |}.

Definition a_row : Row :=
  {| row_content := "old text";
     row_document := "1977";
     row_page := 3;
     row_embedding := vector_of "old text" |}.

Definition stocked_world : World :=
  {| document_chunks := {[ "1977-chunk-0" := a_row ]}; trace := [] |}.

(** The table after [docs/1977.pdf] was ingested once, and twice. *)
Definition once : World := (processDocument env "docs/1977.pdf" empty_world).2.

Definition twice : World := (processDocument env "docs/1977.pdf" once).2.

(** The two chunks of [docs/1977.pdf]. *)
Definition chunks_1977 : list Chunk :=
  [{| text := "float"; metadata_page := None |};
   {| text := "insurance"; metadata_page := None |}].

Definition processed_1977 : ProcessedDocument :=
  {| pd_name := "1977"; pd_chunks := 2; pd_status := processed |}.

(** A request whose [message] is a number, and one whose [message] is the
    empty string. *)
Definition number_request : Request :=
  {| req_body := {| body_message := JNumber 1%Qc;
                    body_conversationHistory := None |};
     req_accept := None |}.

Definition empty_request : Request :=
  {| req_body := {| body_message := JString "";
                    body_conversationHistory := None |};
     req_accept := None |}.

(** The environment with the embedding of the word [insurance] failing. *)
Definition flaky_embed (model value : string) : result (list Qc) :=
  if String.eqb value "insurance" then Throw service_down else ai_embed model value.

Definition env_flaky : Env :=
  Build_Env basename join readFileSync readdirSync pdfParse mdocument_chunk
    flaky_embed openai_embeddings_create openai_chat_completions_create
    (Ok tt) cosine_distance
    (fun _ _ => Ok tt) (fun _ vectors => Ok (omap ve_id vectors))
    (fun _ => Ok []) (Ok []) (fun _ => Ok stats)
    param_error ivfflat_reaches.

(** The environment with the vector index refusing to be created. *)
Definition env_index_broken : Env :=
  Build_Env basename join readFileSync readdirSync pdfParse mdocument_chunk
    ai_embed openai_embeddings_create openai_chat_completions_create
    (Ok tt) cosine_distance
    (fun _ _ => Throw {| message := Some "SQLITE_BUSY: database is locked" |})
    (fun _ vectors => Ok (omap ve_id vectors))
    (fun _ => Ok []) (Ok []) (fun _ => Ok stats)
    param_error ivfflat_reaches.

(** The environment with the vector index already there. *)
Definition env_index_exists : Env :=
  Build_Env basename join readFileSync readdirSync pdfParse mdocument_chunk
    ai_embed openai_embeddings_create openai_chat_completions_create
    (Ok tt) cosine_distance
    (fun _ _ => Throw {| message := Some "Index 1977 already exists" |})
    (fun _ vectors => Ok (omap ve_id vectors))
    (fun _ => Ok []) (Ok []) (fun _ => Ok stats)
    param_error ivfflat_reaches.

(** The environment with the vector store refusing every upsert. *)
Definition env_upsert_refused : Env :=
  Build_Env basename join readFileSync readdirSync pdfParse mdocument_chunk
    ai_embed openai_embeddings_create openai_chat_completions_create
    (Ok tt) cosine_distance
    (fun _ _ => Ok tt)
    (fun _ _ => Throw {| message := Some "SQLITE_ERROR: no such table" |})
    (fun _ => Ok []) (Ok []) (fun _ => Ok stats)
    param_error ivfflat_reaches.

(** The same two ingestions with the vector store refusing. *)
Definition refused_once : World :=
  (processDocument env_upsert_refused "docs/1977.pdf" empty_world).2.

Definition refused_twice : World :=
  (processDocument env_upsert_refused "docs/1977.pdf" refused_once).2.

Definition failed_1977 : ProcessedDocument :=
  {| pd_name := "1977"; pd_chunks := 0; pd_status := error |}.


(** A host whose directory [srv/documents] exists, and one without it. *)
Definition host : Host :=
  {| dirname := "srv"; existsSync := fun p => String.eqb p "srv/documents" |}.

Definition bare_host : Host :=
  {| dirname := "srv"; existsSync := fun _ => false |}.

(** A request with a question, plain and as an event stream. *)
Definition question_request : Request :=
  {| req_body := {| body_message := JString "float";
                    body_conversationHistory := None |};
     req_accept := None |}.

Definition streamed_request : Request :=
  {| req_body := {| body_message := JString "float";
                    body_conversationHistory := None |};
     req_accept := Some "text/event-stream" |}.

(** What a run returned, [d] standing for a throw. *)
Definition returned {A : Type} (d : A) (run : result A * World) : A :=
  match run.1 with
  | Ok a => a
  | Throw _ => d
  end.

(** The query vector of the question [float]. *)
Definition query : list Qc := vector_of "float".

End Demo.

(** * Properties *)

(** Unfolds the monad down to the pairs it stands for. *)
Ltac run :=
  unfold bind, try_catch, ret, throw, lift, call, get_table, put_table in *;
  simpl in *.

(** Every chunk of a file of the concrete environment gets through. *)
Ltac stores_all_chunks :=
  split; [vm_compute; reflexivity|];
  split;
    [first [left; reflexivity
           |right; eexists; split; [reflexivity|vm_compute; reflexivity]]|];
  intros [|[|j]] chunk Hj; simpl in Hj; try discriminate;
  injection Hj as <-; eexists; (split; [reflexivity|]);
  repeat split; vm_compute; reflexivity.

(** Splits the hypotheses that equate two outcomes. *)
Ltac outcome :=
  repeat match goal with
         | H : (_, _) = (_, _) |- _ => inversion H; subst; clear H
         end.

(** The two orders on the numbers of the server. *)
Lemma float8_le_total : Total float8_le.
Proof. intros [x|] [y|]; simpl; auto. apply (total Qcle). Qed.

Lemma float8_le_trans : Transitive float8_le.
Proof. intros [x|] [y|] [z|]; simpl; try tauto. apply Qcle_trans. Qed.

Lemma one_minus_antitone a b :
  float8_le a b -> similarity_ge (one_minus a) (one_minus b).
Proof.
  destruct a as [x|], b as [y|]; simpl; try tauto.
  intros H. unfold Qcminus. apply Qcplus_le_mono_l. apply Qcopp_le_compat. exact H.
Qed.

Section VectorSearchTool.

Variable env : Env.

Lemma pool_query_run q w :
  pool_query env q w =
    (pool_connect env,
     {| document_chunks := document_chunks w; trace := trace w ++ [PoolQuery q] |}).
Proof. unfold pool_query. run. reflexivity. Qed.

(** [pool.query] rejects: every method of the tool rejects with it. *)
Lemma pool_query_throw q w e :
  pool_connect env = Throw e ->
  pool_query env q w =
    (Throw e,
     {| document_chunks := document_chunks w; trace := trace w ++ [PoolQuery q] |}).
Proof. intros H. rewrite pool_query_run, H. reflexivity. Qed.

(** *** [storeChunk] *)

Lemma storeChunk_run chunk w r w' :
  storeChunk env chunk w = (r, w') ->
  trace w' = trace w ++ [PoolQuery (UpsertChunk chunk)] /\
  ((r = Ok tt /\ storable env chunk /\
    document_chunks w' = upsert chunk (document_chunks w)) \/
   ((exists e, r = Throw e) /\ ~ storable env chunk /\
    document_chunks w' = document_chunks w)).
Proof.
  unfold storeChunk, storable. unfold bind at 1. rewrite pool_query_run.
  destruct (pool_connect env) as [[]|e] eqn:Hc.
  - destruct (pg_int4 (chunk_page chunk)) eqn:Hp; simpl.
    + destruct (length (chunk_embedding chunk) =? vector_dimension)%nat eqn:Hd;
        simpl.
      * apply Nat.eqb_eq in Hd.
        destruct (param_error env (UpsertChunk chunk)) as [e|] eqn:Hpe;
          run; intros; outcome; simpl; (split; [reflexivity|]).
        -- right. split; [eauto|]. split; [|done].
           intros (_ & _ & _ & ?). congruence.
        -- left. repeat split; auto.
      * run; intros; outcome; simpl; (split; [reflexivity|]).
        right. apply Nat.eqb_neq in Hd. split; [eauto|]. split; [tauto|done].
    + run. intros; outcome; simpl. split; [done|].
      right. split; [eauto|]. split; [|done]. intros (_ & ? & _). congruence.
  - intros; outcome; simpl. split; [done|].
    right. split; [eauto|]. split; [|done]. intros (? & _). congruence.
Qed.

Lemma storeChunk_ok chunk w :
  storable env chunk ->
  storeChunk env chunk w =
    (Ok tt, {| document_chunks := upsert chunk (document_chunks w);
               trace := trace w ++ [PoolQuery (UpsertChunk chunk)] |}).
Proof.
  intros Hs. destruct (storeChunk env chunk w) as [r w'] eqn:H.
  destruct (storeChunk_run _ _ _ _ H) as (Ht & [(-> & _ & Hd)|(_ & Hn & _)]);
    [|tauto].
  destruct w'; simpl in *; subst. reflexivity.
Qed.

Lemma upsert_lookup_ne chunk (tbl : gmap string Row) j :
  j ≠ chunk_id chunk -> upsert chunk tbl !! j = tbl !! j.
Proof.
  intros Hne. unfold upsert.
  destruct (tbl !! chunk_id chunk); by rewrite lookup_insert_ne.
Qed.

Lemma upsert_lookup_existing chunk (tbl : gmap string Row) old :
  tbl !! chunk_id chunk = Some old ->
  upsert chunk tbl !! chunk_id chunk = Some (overwritten chunk old).
Proof. intros H. unfold upsert. rewrite H. apply lookup_insert_eq. Qed.

Lemma upsert_lookup_fresh chunk (tbl : gmap string Row) :
  tbl !! chunk_id chunk = None ->
  upsert chunk tbl !! chunk_id chunk =
    Some {| row_content := chunk_content chunk;
            row_document := chunk_document chunk;
            row_page := chunk_page chunk;
            row_embedding := chunk_embedding chunk |}.
Proof. intros H. unfold upsert. rewrite H. apply lookup_insert_eq. Qed.

(** Writing again what the row already holds changes nothing. *)
Lemma upsert_same chunk (tbl : gmap string Row) old :
  tbl !! chunk_id chunk = Some old ->
  row_content old = chunk_content chunk ->
  row_embedding old = chunk_embedding chunk ->
  upsert chunk tbl = tbl.
Proof.
  intros H Hc He. unfold upsert. rewrite H. apply insert_id.
  rewrite H. f_equal. destruct old; simpl in *; subst. reflexivity.
Qed.

(** C3. When a row with the chunk's id exists, [storeChunk] leaves under
    that id the old row with only [content] and [embedding] replaced by
    the chunk's ([document] and [page] stay), or the old row itself when the
    statement is rejected; every other row is untouched; and the statement
    is accepted whenever the database is reachable, the page fits
    [INTEGER], the embedding has 1536 components and the server objects to
    nothing else in the parameters. *)
Theorem storeChunk_overwrites_content_and_embedding_only
    (chunk : DocumentChunk) (old : Row) (w : World) (r : result unit) (w' : World) :
  document_chunks w !! chunk_id chunk = Some old ->
  storeChunk env chunk w = (r, w') ->
  document_chunks w' !! chunk_id chunk =
    Some (match r with
          | Ok _ => {| row_content := chunk_content chunk;
                       row_document := row_document old;
                       row_page := row_page old;
                       row_embedding := chunk_embedding chunk |}
          | Throw _ => old
          end) /\
  (forall j, j ≠ chunk_id chunk ->
             document_chunks w' !! j = document_chunks w !! j) /\
  (storable env chunk -> r = Ok tt).
Proof.
  intros Hold Hrun.
  destruct (storeChunk_run _ _ _ _ Hrun) as (_ & [(-> & Hs & ->)|((e & ->) & Hn & ->)]).
  - split; [by apply upsert_lookup_existing|].
    split; [intros; by apply upsert_lookup_ne|done].
  - split; [done|]. split; [done|tauto].
Qed.

(** *** [searchSimilarChunks] *)

Lemma distance_le_total q : Total (distance_le env q).
Proof. intros r1 r2. unfold distance_le. apply float8_le_total. Qed.

Lemma distance_le_trans q : Transitive (distance_le env q).
Proof. intros r1 r2 r3. unfold distance_le. apply float8_le_trans. Qed.

(** The rows the scan reaches are rows of the table. *)
Lemma reached_elem q (tbl : gmap string Row) (r : string * Row) :
  r ∈ reached env q tbl <->
  tbl !! r.1 = Some r.2 /\ ivfflat_reaches env q tbl r.1 = true.
Proof.
  unfold reached. rewrite list_elem_of_In, filter_In, <- list_elem_of_In.
  by rewrite elem_of_map_to_list'.
Qed.

(** The rows reached, nearest first. *)
Lemma ordered_rows_sorted q (tbl : gmap string Row) :
  StronglySorted (distance_le env q)
    (merge_sort (distance_le env q) (reached env q tbl)).
Proof.
  apply StronglySorted_merge_sort; [apply distance_le_trans|apply distance_le_total].
Qed.

Lemma ordered_rows_elem q (tbl : gmap string Row) (r : string * Row) :
  r ∈ merge_sort (distance_le env q) (reached env q tbl) <->
  tbl !! r.1 = Some r.2 /\ ivfflat_reaches env q tbl r.1 = true.
Proof. rewrite merge_sort_Permutation. apply reached_elem. Qed.

Lemma nearest_sorted q limit (tbl : gmap string Row) :
  StronglySorted (distance_le env q) (nearest env q limit tbl).
Proof.
  unfold nearest. eapply StronglySorted_app_1_l.
  rewrite take_drop. apply ordered_rows_sorted.
Qed.

Lemma nearest_elem q limit (tbl : gmap string Row) (r : string * Row) :
  r ∈ nearest env q limit tbl ->
  tbl !! r.1 = Some r.2 /\ ivfflat_reaches env q tbl r.1 = true.
Proof. unfold nearest. intros H. by apply subseteq_take, ordered_rows_elem in H. Qed.

(** A greater distance is a smaller similarity. *)
Lemma select_row_antitone q r1 r2 :
  distance_le env q r1 r2 ->
  similarity_ge (sr_similarity (select_row env q r1))
                (sr_similarity (select_row env q r2)).
Proof. unfold distance_le. simpl. apply one_minus_antitone. Qed.

(** The runs of [searchSimilarChunks]: the rows it returns, and when. *)
Lemma searchSimilarChunks_run q limit w r w' :
  searchSimilarChunks env q limit w = (r, w') ->
  w' = {| document_chunks := document_chunks w;
          trace := trace w ++ [PoolQuery (SelectSimilar q (default 5 limit))] |} /\
  ((r = Ok (select_row env q <$>
              nearest env q (default 5 limit) (document_chunks w)) /\
    searchable env q (default 5 limit) (document_chunks w)) \/
   ((exists e, r = Throw e) /\
    ~ searchable env q (default 5 limit) (document_chunks w))).
Proof.
  unfold searchSimilarChunks, searchable. unfold bind at 1. rewrite pool_query_run.
  destruct (pool_connect env) as [[]|e] eqn:Hc.
  - run. destruct (length q =? 0)%nat eqn:Hq.
    + apply Nat.eqb_eq in Hq. intros; outcome. split; [done|].
      right. split; [eauto|]. intros (_ & ? & _). destruct q; simpl in *; [done|lia].
    + apply Nat.eqb_neq in Hq.
      assert (q ≠ []) by (intros ->; by apply Hq).
      destruct (default 5 limit <? 0) eqn:Hl.
      * intros; outcome. split; [done|]. right. split; [eauto|]. lia.
      * destruct (forallb (same_dimension q) (map_to_list (document_chunks w)))
          eqn:Hd; simpl.
        -- destruct (param_error env (SelectSimilar q (default 5 limit)))
             as [e|] eqn:Hpe; intros; outcome; (split; [done|]).
           ++ right. split; [eauto|]. intros (_ & _ & _ & _ & ?). congruence.
           ++ left. repeat split; try done; lia.
        -- intros; outcome; (split; [done|]).
           right. split; [eauto|]. intros (_ & _ & _ & ? & _). congruence.
  - intros; outcome. split; [done|]. right. split; [eauto|].
    intros (? & _). congruence.
Qed.

Lemma same_dimension_all q (tbl : gmap string Row) :
  (forall id row, tbl !! id = Some row -> length (row_embedding row) = length q) ->
  forallb (same_dimension q) (map_to_list tbl) = true.
Proof.
  intros H. apply forallb_forall. intros [id row] Hin.
  apply list_elem_of_In, elem_of_map_to_list in Hin.
  unfold same_dimension. simpl. apply Nat.eqb_eq. eauto.
Qed.

Lemma same_dimension_each q (tbl : gmap string Row) :
  forallb (same_dimension q) (map_to_list tbl) = true ->
  forall id row, tbl !! id = Some row -> length (row_embedding row) = length q.
Proof.
  intros H id row Hrow. rewrite forallb_forall in H.
  apply elem_of_map_to_list, list_elem_of_In, H in Hrow.
  by apply Nat.eqb_eq in Hrow.
Qed.

(** C2. Whenever [searchSimilarChunks] returns rows for the limit [K],
    there are at most [K] of them, each is a row of the table with
    [similarity] one minus the cosine distance between the stored
    embedding and the query, and they come in descending similarity; and
    it does return whenever the server accepts the statement: the database
    is reachable, the query vector is not empty, [K] is not negative, the
    stored vectors have the query's dimension and the server objects to
    nothing else in the two parameters. *)
Theorem searchSimilarChunks_limit_similarity_order
    (q : list Qc) (K : Z) (w : World) :
  (forall rows w',
     searchSimilarChunks env q (Some K) w = (Ok rows, w') ->
     Z.of_nat (length rows) <= K /\
     Forall (fun r =>
               exists row, document_chunks w !! sr_id r = Some row /\
                 sr_content r = row_content row /\
                 sr_document r = row_document row /\
                 sr_page r = row_page row /\
                 sr_similarity r =
                   one_minus (cosine_distance env (row_embedding row) q)) rows /\
     StronglySorted (fun a b => similarity_ge (sr_similarity a) (sr_similarity b))
       rows) /\
  (pool_connect env = Ok tt -> q ≠ [] -> 0 <= K ->
   (forall id row, document_chunks w !! id = Some row ->
                   length (row_embedding row) = length q) ->
   param_error env (SelectSimilar q K) = None ->
   exists rows w', searchSimilarChunks env q (Some K) w = (Ok rows, w')).
Proof.
  split.
  - intros rows w' Hrun.
    destruct (searchSimilarChunks_run _ _ _ _ _ Hrun)
      as (_ & [(Hr & _ & _ & HK & _)|((e & ?) & _)]); [|done].
    simpl in *. injection Hr as ->. split; [|split].
    + unfold nearest. rewrite length_fmap, length_take. lia.
    + apply Forall_fmap, Forall_forall. intros [id row] Hin. simpl.
      apply list_elem_of_In, nearest_elem in Hin. simpl in Hin.
      exists row. unfold distance. simpl. tauto.
    + eapply StronglySorted_fmap; [|apply nearest_sorted].
      intros r1 r2. apply select_row_antitone.
  - intros Hc Hq HK Hd Hpe.
    destruct (searchSimilarChunks env q (Some K) w) as [r w'] eqn:Hrun.
    destruct (searchSimilarChunks_run _ _ _ _ _ Hrun)
      as (_ & [(-> & _)|(_ & Hn)]); [eauto|].
    exfalso. apply Hn. unfold searchable. simpl.
    repeat split; auto using same_dimension_all.
Qed.

End VectorSearchTool.

Section Workflow.

Variable env : Env.

Lemma embed_run model value w :
  embed env model value w =
    (ai_embed env model value, logged w [AiEmbed model value]).
Proof. reflexivity. Qed.

Lemma chunkId_inj documentName : Inj (=) (=) (chunkId documentName).
Proof.
  intros i j H. unfold chunkId in H.
  apply (inj (String.app documentName)) in H.
  apply (inj (String.app "-chunk-")) in H.
  by apply (inj pretty) in H.
Qed.

(** Every run of [process_chunks] is a [loop_run]. *)
Lemma process_chunks_loop_run documentName chunks :
  forall i st w r w',
    process_chunks env documentName chunks i st w = (r, w') ->
    loop_run env documentName chunks i st w r w'.
Proof.
  induction chunks as [|chunk rest IH]; intros i st w r w' H.
  - simpl in H. run. outcome. constructor.
  - simpl in H. unfold bind at 1 in H. rewrite embed_run in H.
    destruct (ai_embed env embedding_model (text chunk)) as [embedding|e] eqn:He.
    + unfold bind at 1 in H.
      destruct (storeChunk env (documentChunk documentName i chunk embedding)
                  (logged w [AiEmbed embedding_model (text chunk)]))
        as [rs ws] eqn:Hs.
      destruct (storeChunk_run _ _ _ _ _ Hs)
        as (Ht & [(-> & Hst & Hd)|((e & ->) & Hn & Hd)]).
      * apply IH in H. eapply loop_next; eauto.
        destruct ws as [d t]. simpl in *. subst d t.
        rewrite <- app_assoc in H. exact H.
      * outcome. destruct w' as [d t]. simpl in *. subst d t.
        rewrite <- app_assoc.
        by apply (loop_store_throws env documentName chunk rest i st w embedding e).
    + outcome. by constructor.
Qed.

(** What a run of the loop appends to the trace: embedding calls with the
    ingestion model and upserts of the ids [i, i+1, ...], each chunk
    carrying the embedding of its own text. *)
Lemma loop_run_trace documentName chunks i st w r w' :
  loop_run env documentName chunks i st w r w' ->
  exists t k,
    trace w' = trace w ++ t /\
    (k <= length chunks)%nat /\
    stored_ids t = chunkId documentName <$> seq i k /\
    Forall (eq embedding_model) (embedding_models t) /\
    Forall (fun chunk =>
              ai_embed env embedding_model (chunk_content chunk)
              = Ok (chunk_embedding chunk)) (omap stored_chunk t) /\
    vector_ids t = [] /\
    (forall st', r = Ok st' ->
       k = length chunks /\
       embedding_calls t = (fun chunk => (embedding_model, text chunk)) <$> chunks).
Proof.
  induction 1 as [i st w|chunk rest i st w e He|chunk rest i st w embedding e He Hn
                 |chunk rest i st w embedding r w' He Hs Hrun IH].
  - exists [], 0%nat. rewrite app_nil_r. repeat split; auto.
  - exists [AiEmbed embedding_model (text chunk)], 0%nat.
    unfold embedding_models, embedding_calls. simpl.
    repeat split; auto with lia; done.
  - exists [AiEmbed embedding_model (text chunk);
            PoolQuery (UpsertChunk (documentChunk documentName i chunk embedding))],
      1%nat.
    unfold embedding_models, embedding_calls. simpl.
    repeat split; auto with lia; done.
  - destruct IH as (t & k & Ht & Hk & Hids & Hm & He' & Hv & Hok). simpl in Ht.
    exists ([AiEmbed embedding_model (text chunk);
             PoolQuery (UpsertChunk (documentChunk documentName i chunk embedding))]
            ++ t), (S k).
    rewrite Ht, <- app_assoc. simpl.
    split; [reflexivity|]. split; [lia|].
    unfold stored_ids, embedding_models, embedding_calls, vector_ids in *. simpl.
    split; [f_equal; exact Hids|]. split; [by constructor|].
    split; [by constructor|]. split; [exact Hv|].
    intros st' ->. destruct (Hok _ eq_refl) as [-> Hcalls].
    split; [done|]. f_equal. exact Hcalls.
Qed.

(** The locals after a run that reached the end of the loop. *)
Lemma loop_run_state documentName chunks i st w st' w' :
  loop_run env documentName chunks i st w (Ok st') w' ->
  processedChunks st' = (processedChunks st + length chunks)%nat /\
  length (embeddings st') = (length (embeddings st) + length chunks)%nat /\
  length (metadata st') = (length (metadata st) + length chunks)%nat.
Proof.
  remember (Ok st') as r eqn:Hr. intros Hrun. revert st' Hr.
  induction Hrun as [i st w|chunk rest i st w e He|chunk rest i st w embedding e He Hn
                    |chunk rest i st w embedding r w' He Hs Hrun IH];
    intros st' Hr; try discriminate.
  - injection Hr as ->. simpl. lia.
  - destruct (IH _ Hr) as (H1 & H2 & H3). simpl in *.
    rewrite length_app in H2, H3. simpl in *. lia.
Qed.

(** The loop entered at [i] writes no row but those of ids [i, i+1, ...]. *)
Lemma loop_run_frame documentName chunks i st w r w' :
  loop_run env documentName chunks i st w r w' ->
  forall key, (forall k, (i <= k)%nat -> key ≠ chunkId documentName k) ->
              document_chunks w' !! key = document_chunks w !! key.
Proof.
  induction 1 as [i st w|chunk rest i st w e He|chunk rest i st w embedding e He Hn
                 |chunk rest i st w embedding r w' He Hs Hrun IH];
    intros key Hkey; try reflexivity.
  rewrite IH by (intros; apply Hkey; lia). simpl.
  apply upsert_lookup_ne. simpl. apply Hkey. lia.
Qed.

(** After a run that reached the end, the row of every chunk holds the
    chunk's text and its embedding. *)
Lemma loop_run_stored documentName chunks i st w st' w' :
  loop_run env documentName chunks i st w (Ok st') w' ->
  forall j chunk, chunks !! j = Some chunk ->
    exists embedding row,
      ai_embed env embedding_model (text chunk) = Ok embedding /\
      document_chunks w' !! chunkId documentName (i + j) = Some row /\
      row_content row = text chunk /\
      row_embedding row = embedding.
Proof.
  remember (Ok st') as r eqn:Hr. intros Hrun. revert st' Hr.
  induction Hrun as [i st w|chunk rest i st w e He|chunk rest i st w embedding e He Hn
                    |chunk rest i st w embedding r w' He Hs Hrun IH];
    intros st' Hr j c Hj; try discriminate.
  destruct j as [|j]; simpl in Hj.
  - injection Hj as <-. exists embedding. rewrite Nat.add_0_r.
    rewrite (loop_run_frame _ _ _ _ _ _ _ Hrun); simpl.
    + set (dc := documentChunk documentName i chunk embedding).
      destruct (document_chunks w !! chunk_id dc) as [old|] eqn:Hold.
      * exists (overwritten dc old). split; [done|].
        split; [by apply upsert_lookup_existing|done].
      * eexists. split; [done|].
        split; [by apply upsert_lookup_fresh|done].
    + intros k Hk Heq. apply chunkId_inj in Heq. lia.
  - destruct (IH _ Hr j c Hj) as (e' & row & ? & Hl & ? & ?).
    exists e', row. replace (i + S j)%nat with (S i + j)%nat by lia. done.
Qed.

(** A loop whose chunks are all embedded and accepted reaches its end. *)
Lemma loop_run_completes documentName chunks i st w r w' :
  loop_run env documentName chunks i st w r w' ->
  (forall j chunk,
     chunks !! j = Some chunk ->
     exists embedding,
       ai_embed env embedding_model (text chunk) = Ok embedding /\
       storable env (documentChunk documentName (i + j) chunk embedding)) ->
  exists st', r = Ok st'.
Proof.
  induction 1 as [i st w|chunk rest i st w e He|chunk rest i st w embedding e He Hn
                 |chunk rest i st w embedding r w' He Hs Hrun IH];
    intros Hall.
  - eauto.
  - destruct (Hall 0%nat chunk eq_refl) as (embedding & He' & _). congruence.
  - destruct (Hall 0%nat chunk eq_refl) as (embedding' & He' & Hs).
    rewrite Nat.add_0_r in Hs. exfalso. apply Hn. congruence.
  - apply IH. intros j c Hj.
    replace (S i + j)%nat with (i + S j)%nat by lia. by apply Hall.
Qed.

(** A loop that reached its end had every chunk embedded and accepted. *)
Lemma loop_run_accepts documentName chunks i st w st' w' :
  loop_run env documentName chunks i st w (Ok st') w' ->
  forall j chunk,
    chunks !! j = Some chunk ->
    exists embedding,
      ai_embed env embedding_model (text chunk) = Ok embedding /\
      storable env (documentChunk documentName (i + j) chunk embedding).
Proof.
  remember (Ok st') as r eqn:Hr. intros Hrun. revert st' Hr.
  induction Hrun as [i st w|chunk rest i st w e He|chunk rest i st w embedding e He Hn
                    |chunk rest i st w embedding r w' He Hs Hrun IH];
    intros st' Hr j c Hj; try discriminate.
  destruct j as [|j]; simpl in Hj.
  - injection Hj as <-. exists embedding. by rewrite Nat.add_0_r.
  - replace (i + S j)%nat with (S i + j)%nat by lia. by eapply IH.
Qed.

(** Every run of the body of [processDocument] is a [body_run]. *)
Lemma processDocument_body_run filePath w r w' :
  processDocument_body env filePath w = (r, w') ->
  body_run env filePath w r w'.
Proof.
  unfold processDocument_body. intros H.
  unfold bind at 1, lift at 1 in H.
  destruct (readFileSync env filePath) as [fileBuffer|e] eqn:Hread;
    [|outcome; constructor; unfold chunks_of; by rewrite Hread].
  unfold bind at 1, lift at 1 in H.
  destruct (pdfParse env fileBuffer) as [pdfData|e] eqn:Hparse;
    [|outcome; constructor; unfold chunks_of; by rewrite Hread, Hparse].
  unfold bind at 1, lift at 1 in H.
  destruct (mdocument_chunk env (pdf_text pdfData) chunk_params)
    as [chunks|e] eqn:Hchunk;
    [|outcome; constructor; unfold chunks_of; by rewrite Hread, Hparse, Hchunk].
  assert (Hchunks : chunks_of env filePath = Ok chunks)
    by (unfold chunks_of; by rewrite Hread, Hparse, Hchunk).
  set (documentName := basename env filePath ".pdf") in *.
  unfold bind at 1, try_catch, createIndex in H.
  unfold bind at 1, call, lift at 1 in H.
  fold (logged w [VectorCreateIndex documentName 1536]) in H.
  assert (Hcases :
    (exists e, vector_createIndex env documentName 1536 = Throw e /\
               message_includes e "already exists" = false) \/
    index_ready env documentName).
  { unfold index_ready.
    destruct (vector_createIndex env documentName 1536) as [[]|e]; [auto|].
    destruct (message_includes e "already exists") eqn:Hm; eauto. }
  destruct Hcases as [(e & Hi & Hm)|Hready].
  - rewrite Hi, Hm in H. simpl in H. run. outcome.
    eapply body_index_throws; eauto.
  - assert (Hskip :
      (let (r0, w0) :=
         match vector_createIndex env documentName 1536 with
         | Ok a => (Ok a, logged w [VectorCreateIndex documentName 1536])
         | Throw e =>
             (if negb (message_includes e "already exists")
              then throw e else ret ()) (logged w [VectorCreateIndex documentName 1536])
         end in (r0, w0)) = (Ok tt, logged w [VectorCreateIndex documentName 1536])).
    { destruct Hready as [->|(e & -> & ->)]; reflexivity. }
    destruct (match vector_createIndex env documentName 1536 with
              | Ok a => (Ok a, logged w [VectorCreateIndex documentName 1536])
              | Throw e =>
                  (if negb (message_includes e "already exists")
                   then throw e else ret ()) (logged w [VectorCreateIndex documentName 1536])
              end) as [r0 w0] eqn:Hidx.
    injection Hskip as -> ->.
    unfold bind at 1 in H.
    destruct (process_chunks env documentName chunks 0 initial_locals
                (logged w [VectorCreateIndex documentName 1536]))
      as [rl wl] eqn:Hloop.
    apply process_chunks_loop_run in Hloop.
    destruct rl as [st|e].
    + unfold bind at 1, vectorStore_upsert in H.
      unfold bind at 1, call, lift in H.
      fold (logged wl [VectorUpsert documentName (vectors_of documentName st)]) in H.
      destruct (vector_upsert env documentName (vectors_of documentName st))
        as [ids|e] eqn:Hup.
      * run. outcome. eapply body_processed; eauto.
      * outcome. eapply body_upsert_throws; eauto.
    + outcome. eapply body_loop_throws; eauto.
Qed.

(** [processDocument] returns: a thrown body becomes the error record. *)
Lemma processDocument_run filePath w :
  exists rb w',
    body_run env filePath w rb w' /\
    processDocument env filePath w =
      (Ok (match rb with
           | Ok pd => pd
           | Throw _ => error_record env filePath
           end), w').
Proof.
  unfold processDocument, try_catch.
  destruct (processDocument_body env filePath w) as [rb w'] eqn:Hb.
  exists rb, w'. split; [by apply processDocument_body_run|].
  destruct rb; reflexivity.
Qed.

(** The ids [vectorStore.upsert] receives are the ids of the second loop,
    none of them [undefined]. *)
Lemma vectors_of_ids documentName st :
  ve_id <$> vectors_of documentName st =
    Some <$> (chunkId documentName <$> seq 0 (length (embeddings st))).
Proof.
  unfold vectors_of. apply list_eq. intros n.
  rewrite !list_lookup_fmap, list_lookup_imap.
  destruct (embeddings st !! n) as [embedding|] eqn:Hn; simpl.
  - apply lookup_lt_Some in Hn.
    rewrite list_lookup_fmap, lookup_seq_lt by done. reflexivity.
  - apply lookup_ge_None in Hn.
    rewrite lookup_seq_ge by done. reflexivity.
Qed.

(** What a run of the body appends to the trace. *)
Lemma body_run_trace filePath w r w' :
  body_run env filePath w r w' ->
  exists t k,
    trace w' = trace w ++ t /\
    stored_ids t = chunkId (basename env filePath ".pdf") <$> seq 0 k /\
    Forall (eq embedding_model) (embedding_models t) /\
    Forall (fun chunk =>
              ai_embed env embedding_model (chunk_content chunk)
              = Ok (chunk_embedding chunk)) (omap stored_chunk t) /\
    (forall chunks, chunks_of env filePath = Ok chunks -> (k <= length chunks)%nat) /\
    (forall pd, r = Ok pd ->
       exists chunks,
         chunks_of env filePath = Ok chunks /\
         k = length chunks /\
         pd = {| pd_name := basename env filePath ".pdf";
                 pd_chunks := length chunks;
                 pd_status := processed |} /\
         embedding_calls t = (fun chunk => (embedding_model, text chunk)) <$> chunks /\
         vector_ids t = Some <$> stored_ids t) /\
    (forall chunks, stores_all env filePath chunks ->
       k = length chunks /\ vector_ids t = Some <$> stored_ids t).
Proof.
  set (documentName := basename env filePath ".pdf").
  assert (Hloop : forall chunks rl wl,
    chunks_of env filePath = Ok chunks ->
    loop_run env documentName chunks 0 initial_locals
      (logged w [VectorCreateIndex documentName 1536]) rl wl ->
    exists t k,
      trace wl = trace w ++ VectorCreateIndex documentName 1536 :: t /\
      (k <= length chunks)%nat /\
      stored_ids (VectorCreateIndex documentName 1536 :: t)
        = chunkId documentName <$> seq 0 k /\
      Forall (eq embedding_model)
        (embedding_models (VectorCreateIndex documentName 1536 :: t)) /\
      Forall (fun chunk =>
                ai_embed env embedding_model (chunk_content chunk)
                = Ok (chunk_embedding chunk))
        (omap stored_chunk (VectorCreateIndex documentName 1536 :: t)) /\
      vector_ids t = [] /\
      (forall st', rl = Ok st' ->
         k = length chunks /\
         embedding_calls t = (fun chunk => (embedding_model, text chunk)) <$> chunks)).
  { intros chunks rl wl _ Hrun.
    destruct (loop_run_trace _ _ _ _ _ _ _ Hrun)
      as (t & k & Ht & Hk & Hids & Hm & He & Hv & Hok).
    exists t, k. simpl in Ht. rewrite <- app_assoc in Ht. auto 10. }
  assert (Hvec : forall chunks st wl t,
    loop_run env documentName chunks 0 initial_locals
      (logged w [VectorCreateIndex documentName 1536]) (Ok st) wl ->
    stored_ids (VectorCreateIndex documentName 1536 :: t)
      = chunkId documentName <$> seq 0 (length chunks) ->
    vector_ids t = [] ->
    vector_ids (VectorCreateIndex documentName 1536
                  :: t ++ [VectorUpsert documentName (vectors_of documentName st)])
    = Some <$> stored_ids
                 (VectorCreateIndex documentName 1536
                    :: t ++ [VectorUpsert documentName (vectors_of documentName st)])).
  { intros chunks st wl t Hl Hids Hv.
    destruct (loop_run_state _ _ _ _ _ _ _ Hl) as (_ & Hlen & _). simpl in Hlen.
    unfold stored_ids, vector_ids in *. simpl in *.
    rewrite omap_app, bind_app, Hv. simpl.
    rewrite !app_nil_r, vectors_of_ids, Hlen. f_equal. exact (eq_sym Hids). }
  intros Hrun.
  destruct Hrun as [e Hc|chunks e Hc Hi Hm|chunks e wl Hc Hr Hl
                   |chunks st wl e Hc Hr Hl Hu|chunks st wl ids Hc Hr Hl Hu].
  - exists [], 0%nat. rewrite app_nil_r.
    split_and!; [done|done|constructor|constructor|intros; lia|intros ? [=]|].
    intros chunks (Hc' & _). congruence.
  - exists [VectorCreateIndex documentName 1536], 0%nat.
    split_and!; [done|done|constructor|constructor|intros; lia|intros ? [=]|].
    intros chunks' (_ & [Hr|(e' & Hr & Hm')] & _);
      unfold documentName in Hr; congruence.
  - destruct (Hloop _ _ _ Hc Hl) as (t & k & Ht & Hk & Hids & Hm & He & Hv & Hok).
    exists (VectorCreateIndex documentName 1536 :: t), k.
    split_and!; [done|done|done|done|intros; congruence|intros ? [=]|].
    intros chunks' (Hc' & _ & Hall). exfalso.
    assert (chunks' = chunks) as -> by congruence.
    destruct (loop_run_completes _ _ _ _ _ _ _ Hl Hall) as (st' & [=]).
  - destruct (Hloop _ _ _ Hc Hl) as (t & k & Ht & Hk & Hids & Hm & He & Hv & Hok).
    destruct (Hok _ eq_refl) as [-> Hcalls].
    pose proof (Hvec _ _ _ _ Hl Hids Hv) as Hvids.
    exists (VectorCreateIndex documentName 1536
              :: t ++ [VectorUpsert documentName (vectors_of documentName st)]),
      (length chunks).
    simpl. rewrite Ht, <- app_assoc. simpl.
    split_and!; [done| | | |intros; congruence|intros ? [=]|].
    + revert Hids. unfold stored_ids. simpl. rewrite omap_app. simpl.
      by rewrite app_nil_r.
    + revert Hm. unfold embedding_models, embedding_calls. simpl.
      rewrite omap_app. simpl. by rewrite app_nil_r.
    + revert He. simpl. rewrite omap_app. simpl. by rewrite app_nil_r.
    + intros chunks' (Hc' & _). split; [congruence|exact Hvids].
  - destruct (Hloop _ _ _ Hc Hl) as (t & k & Ht & Hk & Hids & Hm & He & Hv & Hok).
    destruct (Hok _ eq_refl) as [-> Hcalls].
    pose proof (Hvec _ _ _ _ Hl Hids Hv) as Hvids.
    destruct (loop_run_state _ _ _ _ _ _ _ Hl) as (Hp & _ & _). simpl in Hp.
    exists (VectorCreateIndex documentName 1536
              :: t ++ [VectorUpsert documentName (vectors_of documentName st)]),
      (length chunks).
    simpl. rewrite Ht, <- app_assoc. simpl.
    split_and!; [done| | | |intros; congruence| |].
    + revert Hids. unfold stored_ids. simpl. rewrite omap_app. simpl.
      by rewrite app_nil_r.
    + revert Hm. unfold embedding_models, embedding_calls. simpl.
      rewrite omap_app. simpl. by rewrite app_nil_r.
    + revert He. simpl. rewrite omap_app. simpl. by rewrite app_nil_r.
    + intros pd [= <-]. exists chunks. rewrite Hp.
      split_and!; [done|done|done| |exact Hvids].
      unfold embedding_calls. simpl. rewrite omap_app. simpl.
      rewrite app_nil_r. exact Hcalls.
    + intros chunks' (Hc' & _). split; [congruence|exact Hvids].
Qed.

(** A document reported as processed had every chunk through the loop. *)
Lemma body_run_accepted filePath w pd w' :
  body_run env filePath w (Ok pd) w' ->
  exists chunks,
    stores_all env filePath chunks /\
    pd = {| pd_name := basename env filePath ".pdf";
            pd_chunks := length chunks;
            pd_status := processed |}.
Proof.
  inversion 1 as [| | | |chunks st wl ids Hc Hr Hl Hu]; subst.
  exists chunks. split.
  - split; [done|]. split; [done|].
    intros j chunk Hj. by apply (loop_run_accepts _ _ _ _ _ _ _ Hl j chunk).
  - destruct (loop_run_state _ _ _ _ _ _ _ Hl) as (Hp & _ & _). simpl in Hp.
    by rewrite Hp.
Qed.

(** When every chunk gets through the loop, the body ends at
    [vectorStore.upsert], with every row written before it. *)
Lemma body_run_complete filePath chunks w r w' :
  stores_all env filePath chunks ->
  body_run env filePath w r w' ->
  exists st wl,
    loop_run env (basename env filePath ".pdf") chunks 0 initial_locals
      (logged w [VectorCreateIndex (basename env filePath ".pdf") 1536])
      (Ok st) wl /\
    processedChunks st = length chunks /\
    w' = logged wl [VectorUpsert (basename env filePath ".pdf")
                      (vectors_of (basename env filePath ".pdf") st)] /\
    r = match vector_upsert env (basename env filePath ".pdf")
                (vectors_of (basename env filePath ".pdf") st) with
        | Ok _ => Ok {| pd_name := basename env filePath ".pdf";
                        pd_chunks := length chunks;
                        pd_status := processed |}
        | Throw e => Throw e
        end.
Proof.
  intros (Hc' & Hready & Hall) Hrun.
  destruct Hrun as [e Hc|chunks' e Hc Hi Hm|chunks' e wl Hc Hr Hl
                   |chunks' st wl e Hc Hr Hl Hu|chunks' st wl ids Hc Hr Hl Hu].
  - congruence.
  - destruct Hready as [Hr|(e' & Hr & Hm')]; congruence.
  - assert (chunks' = chunks) as -> by congruence.
    destruct (loop_run_completes _ _ _ _ _ _ _ Hl Hall) as (st' & [=]).
  - assert (chunks' = chunks) as -> by congruence.
    destruct (loop_run_state _ _ _ _ _ _ _ Hl) as (Hp & _ & _). simpl in Hp.
    exists st, wl. rewrite Hu. done.
  - assert (chunks' = chunks) as -> by congruence.
    destruct (loop_run_state _ _ _ _ _ _ _ Hl) as (Hp & _ & _). simpl in Hp.
    exists st, wl. rewrite Hu, Hp. done.
Qed.

(** A loop whose chunks are all in the table, with their text and their
    embedding, leaves the table as it found it. *)
Lemma loop_run_unchanged documentName chunks i st w r w' :
  loop_run env documentName chunks i st w r w' ->
  (forall j chunk embedding,
     chunks !! j = Some chunk ->
     ai_embed env embedding_model (text chunk) = Ok embedding ->
     exists row,
       document_chunks w !! chunkId documentName (i + j) = Some row /\
       row_content row = text chunk /\
       row_embedding row = embedding) ->
  document_chunks w' = document_chunks w.
Proof.
  induction 1 as [i st w|chunk rest i st w e He|chunk rest i st w embedding e He Hn
                 |chunk rest i st w embedding r w' He Hs Hrun IH];
    intros Hrows; try reflexivity.
  assert (Hsame :
    upsert (documentChunk documentName i chunk embedding) (document_chunks w)
    = document_chunks w).
  { destruct (Hrows 0%nat chunk embedding eq_refl He) as (row & Hrow & Hc & Hv).
    rewrite Nat.add_0_r in Hrow. by eapply upsert_same. }
  rewrite IH; simpl; [exact Hsame|].
  intros j c e' Hj He'. rewrite Hsame.
  destruct (Hrows (S j) c e' Hj He') as (row & Hrow & ? & ?).
  exists row. replace (S (i + j))%nat with (i + S j)%nat by lia. done.
Qed.

(** The name of the record [processDocument] returns. *)
Lemma body_run_name filePath w pd w' :
  body_run env filePath w (Ok pd) w' ->
  pd_name pd = basename env filePath ".pdf" /\ pd_status pd = processed.
Proof. inversion 1; subst; done. Qed.

Lemma process_files_run documentsDir pdfFiles :
  forall results w,
    exists new w',
      process_files env documentsDir pdfFiles results w
      = (Ok tt, results ++ new, w') /\
      Forall2 (reported env documentsDir) pdfFiles new.
Proof.
  induction pdfFiles as [|file rest IH]; intros results w; simpl.
  - exists [], w. rewrite app_nil_r. by split.
  - destruct (processDocument_run (join env documentsDir file) w)
      as (rb & w1 & Hb & Hrun).
    rewrite Hrun.
    destruct (IH (results ++
                    [match rb with
                     | Ok pd => pd
                     | Throw _ => error_record env (join env documentsDir file)
                     end]) w1) as (new & w' & Hfiles & Hall).
    eexists (_ :: new), w'. rewrite Hfiles, <- app_assoc. split; [done|].
    constructor; [|done]. split; [|split; [|eauto]].
    + destruct rb; [by apply (body_run_name _ _ _ _ Hb)|done].
    + destruct rb; [|done]. destruct (body_run_name _ _ _ _ Hb). congruence.
Qed.

(** C5. The ids [processDocument] hands to the table are
    [{document}-chunk-0], [{document}-chunk-1], ... in this order, without
    repetition, and never more than the document has chunks.  When every
    one of its [n] chunks gets through the loop (embedded, and accepted by
    the table) they are exactly the [n] ids up to [{document}-chunk-(n-1)],
    and the ids handed to the vector index are the same, whether the
    vector index then accepts them or not; a document reported as
    processed is such a document, and [n] is the count reported. *)
Theorem processDocument_chunk_ids_format_and_unique
    (filePath : string) (w : World) (pd : ProcessedDocument) (w' : World) :
  processDocument env filePath w = (Ok pd, w') ->
  exists t k,
    trace w' = trace w ++ t /\
    stored_ids t =
      (fun i : nat => basename env filePath ".pdf" +:+ "-chunk-" +:+ pretty i)
        <$> seq 0 k /\
    NoDup (stored_ids t) /\
    (forall chunks, chunks_of env filePath = Ok chunks -> (k <= length chunks)%nat) /\
    (forall chunks,
       stores_all env filePath chunks ->
       k = length chunks /\
       vector_ids t = Some <$> stored_ids t) /\
    (pd_status pd = processed ->
     exists chunks,
       stores_all env filePath chunks /\
       pd_chunks pd = length chunks).
Proof.
  intros Hrun.
  destruct (processDocument_run filePath w) as (rb & w1 & Hb & Hrun').
  rewrite Hrun in Hrun'. injection Hrun' as -> ->.
  destruct (body_run_trace _ _ _ _ Hb)
    as (t & k & Ht & Hids & _ & _ & Hk & _ & Hall).
  exists t, k. split; [done|]. split; [exact Hids|]. split; [|split; [|split]].
  - rewrite Hids. apply NoDup_fmap_2; [apply chunkId_inj|apply NoDup_seq].
  - exact Hk.
  - exact Hall.
  - intros Hp. destruct rb as [pd|e]; [|done].
    destruct (body_run_accepted _ _ _ _ Hb) as (chunks & Hs & ->).
    exists chunks. done.
Qed.

(** C4. When the body of [processDocument] throws, [processDocument]
    returns [{name, chunks: 0, status: 'error'}]; and when the directory
    can be listed, [processAllDocuments] returns one record per entry
    ending in [.pdf], in order, each the outcome of [processDocument] on
    that file, an [error] record counting no chunk. *)
Theorem processAllDocuments_one_result_per_pdf
    (documentsDir : string) (files : list string) (w : World) :
  readdirSync env documentsDir = Ok files ->
  (forall filePath w0 e w1,
     processDocument_body env filePath w0 = (Throw e, w1) ->
     processDocument env filePath w0 =
       (Ok {| pd_name := basename env filePath ".pdf";
              pd_chunks := 0;
              pd_status := error |}, w1)) /\
  exists results w',
    processAllDocuments env documentsDir w = (Ok results, w') /\
    length results
      = length (List.filter (fun file => endsWith file ".pdf") files) /\
    Forall2 (fun file pd =>
               pd_name pd = basename env (join env documentsDir file) ".pdf" /\
               (pd_status pd = error -> pd_chunks pd = 0%nat) /\
               exists w0 w1,
                 processDocument env (join env documentsDir file) w0 = (Ok pd, w1))
      (List.filter (fun file => endsWith file ".pdf") files) results.
Proof.
  intros Hdir. split.
  - intros filePath w0 e w1 Hbody. unfold processDocument, try_catch.
    rewrite Hbody. reflexivity.
  - unfold processAllDocuments. rewrite Hdir.
    destruct (process_files_run documentsDir
                (List.filter (fun file => endsWith file ".pdf") files) [] w)
      as (new & w' & Hfiles & Hall).
    rewrite Hfiles. exists new, w'. split; [done|].
    split; [symmetry; by eapply Forall2_length|exact Hall].
Qed.

End Workflow.

(** ** Re-ingestion *)

Lemma same_content_chunks_of env1 env2 filePath :
  same_content env1 env2 -> chunks_of env2 filePath = chunks_of env1 filePath.
Proof.
  intros [_ Hread Hparse Hchunk _]. unfold chunks_of. rewrite Hread.
  destruct (readFileSync env1 filePath) as [fileBuffer|]; [|done].
  rewrite Hparse. destruct (pdfParse env1 fileBuffer); [|done]. apply Hchunk.
Qed.

Lemma seq_prefix (k n : nat) : (k <= n)%nat -> seq 0 k `prefix_of` seq 0 n.
Proof.
  intros Hk. exists (seq k (n - k)).
  replace n with (k + (n - k))%nat at 1 by lia. apply seq_app.
Qed.

(** C6. After an ingestion that got every chunk of a document through
    the loop, whatever the vector index answered and whatever status was
    reported, ingesting the document again, with the file read, parsed,
    chunked and embedded as before and whatever the other services now
    answer, leaves the table as the first ingestion left it: the first
    ingestion handed the [n] ids of the chunks to the table, the ids of the
    second are the same ids in the same order, as far as it gets, and all
    of them when its chunks get through the loop too. *)
Theorem reingestion_same_ids_same_rows
    (env1 env2 : Env) (filePath : string) (chunks : list Chunk)
    (w : World) (pd1 : ProcessedDocument) (w1 : World)
    (pd2 : ProcessedDocument) (w2 : World) :
  same_content env1 env2 ->
  stores_all env1 filePath chunks ->
  processDocument env1 filePath w = (Ok pd1, w1) ->
  processDocument env2 filePath w1 = (Ok pd2, w2) ->
  document_chunks w2 = document_chunks w1 /\
  exists t1 t2,
    trace w1 = trace w ++ t1 /\
    trace w2 = trace w1 ++ t2 /\
    stored_ids t1 =
      chunkId (basename env1 filePath ".pdf") <$> seq 0 (length chunks) /\
    stored_ids t2 `prefix_of` stored_ids t1 /\
    (stores_all env2 filePath chunks -> stored_ids t2 = stored_ids t1) /\
    (pd_status pd2 = processed ->
     stored_ids t2 = stored_ids t1 /\
     pd_chunks pd2 = length chunks /\
     (pd_status pd1 = processed -> pd2 = pd1)).
Proof.
  intros Hsame Hstores Hrun1 Hrun2.
  pose proof (same_content_chunks_of _ _ filePath Hsame) as Hchunks.
  pose proof (same_basename _ _ Hsame filePath ".pdf") as Hname.
  pose proof Hstores as (Hc1 & _ & _).
  (* the first ingestion *)
  destruct (processDocument_run env1 filePath w) as (rb1 & w1' & Hb1 & Hrun1').
  rewrite Hrun1 in Hrun1'. injection Hrun1' as Hpd1 <-.
  destruct (body_run_trace _ _ _ _ _ Hb1)
    as (t1 & k1 & Ht1 & Hids1 & _ & _ & _ & Hok1 & Hall1).
  destruct (Hall1 _ Hstores) as [-> _].
  assert (Hrows : forall j chunk embedding,
            chunks !! j = Some chunk ->
            ai_embed env2 embedding_model (text chunk) = Ok embedding ->
            exists row,
              document_chunks w1 !! chunkId (basename env1 filePath ".pdf") (0 + j)
              = Some row /\
              row_content row = text chunk /\ row_embedding row = embedding).
  { destruct (body_run_complete _ _ _ _ _ _ Hstores Hb1) as (st & wl & Hl & _ & -> & _).
    intros j chunk embedding Hj He.
    destruct (loop_run_stored _ _ _ _ _ _ _ _ Hl j chunk Hj)
      as (e' & row & He' & Hrow & ? & ?).
    rewrite (same_ai_embed _ _ Hsame) in He.
    exists row. simpl. split; [exact Hrow|]. split; [done|]. congruence. }
  (* the second ingestion *)
  destruct (processDocument_run env2 filePath w1) as (rb2 & w2' & Hb2 & Hrun2').
  rewrite Hrun2 in Hrun2'. injection Hrun2' as Hpd2 <-.
  destruct (body_run_trace _ _ _ _ _ Hb2)
    as (t2 & k2 & Ht2 & Hids2 & _ & _ & Hk2 & Hok2 & Hall2).
  rewrite Hchunks in Hk2. specialize (Hk2 _ Hc1).
  rewrite Hname in Hids2.
  split.
  - inversion Hb2 as [| |chunks' e wl Hc Hr Hl|chunks' st wl e Hc Hr Hl Hu
                      |chunks' st wl ids Hc Hr Hl Hu]; subst; try reflexivity;
      rewrite Hchunks, Hc1 in Hc; injection Hc as <-;
      rewrite Hname in Hl;
      apply (loop_run_unchanged env2 _ _ _ _ _ _ _ Hl Hrows).
  - exists t1, t2. split; [done|]. split; [done|]. split; [exact Hids1|].
    split; [|split].
    + rewrite Hids1, Hids2.
      destruct (seq_prefix k2 (length chunks) Hk2) as [rest ->].
      rewrite fmap_app. by apply prefix_app_r.
    + intros Hstores2. destruct (Hall2 _ Hstores2) as [-> _]. congruence.
    + intros Hp2. destruct rb2 as [pd2'|e2]; [|by subst pd2].
      destruct (Hok2 _ eq_refl) as (chunks2 & Hc2 & -> & Hpd2' & _ & _).
      rewrite Hchunks, Hc1 in Hc2. injection Hc2 as <-.
      split; [congruence|]. subst pd2. rewrite Hpd2'. split; [done|].
      intros Hp1. destruct rb1 as [pd1'|e1]; [|by subst pd1].
      destruct (Hok1 _ eq_refl) as (chunks1 & Hc1' & _ & Hpd1' & _ & _).
      assert (chunks1 = chunks) as -> by congruence.
      subst pd1. rewrite Hpd1', Hname. reflexivity.
Qed.

Section Agent.

Variable env : Env.

Lemma string_app_assoc (a b c : string) : (a +:+ b) +:+ c = a +:+ (b +:+ c).
Proof.
  induction a as [|x a IH]; [done|].
  change (String x ((a +:+ b) +:+ c) = String x (a +:+ (b +:+ c))).
  by rewrite IH.
Qed.

Lemma string_app_empty_r (a : string) : a +:+ "" = a.
Proof.
  induction a as [|x a IH]; [done|].
  change (String x (a +:+ "") = String x a). by rewrite IH.
Qed.

(** The accumulated [response] is the frames' contents, one after the other. *)
Lemma response_accumulated (l : list StreamChunk) (acc : string) :
  foldl (fun response chunk => response +:+ frame_content chunk) acc l
  = acc +:+ foldr (fun chunk rest => frame_content chunk +:+ rest) "" l.
Proof.
  revert acc. induction l as [|chunk l IH]; intros acc; simpl.
  - by rewrite string_app_empty_r.
  - by rewrite IH, string_app_assoc.
Qed.

Lemma read_stream_run completion w :
  read_stream completion w =
    (match stream_error completion with
     | Some e => Throw e
     | None =>
         Ok (foldr (fun chunk rest => frame_content chunk +:+ rest) ""
               (frames completion))
     end, w).
Proof.
  unfold read_stream. rewrite response_accumulated. simpl.
  by destruct (stream_error completion).
Qed.


(** The number of rows a search with limit [limit] retrieves. *)
Lemma top_rows_length q (tbl : gmap string Row) (limit : Z) :
  length (select_row env q <$> nearest env q limit tbl)
  = (Z.to_nat limit `min` length (reached env q tbl))%nat.
Proof.
  unfold nearest. rewrite length_fmap, length_take.
  by rewrite (Permutation_length (merge_sort_Permutation _ _)).
Qed.

(** No row reached and left out is nearer to the query than a row
    returned. *)
Lemma top_rows_nearest q (tbl : gmap string Row) (limit : Z) id row :
  tbl !! id = Some row ->
  ivfflat_reaches env q tbl id = true ->
  let rows := select_row env q <$> nearest env q limit tbl in
  (exists r, r ∈ rows /\ sr_id r = id) \/
  (forall r, r ∈ rows ->
             similarity_ge (sr_similarity r)
               (one_minus (cosine_distance env (row_embedding row) q))).
Proof.
  intros Hrow Hreach rows.
  assert (Hin : (id, row) ∈ merge_sort (distance_le env q) (reached env q tbl))
    by by apply ordered_rows_elem.
  pose proof (ordered_rows_sorted env q tbl) as Hsorted.
  rewrite <- (take_drop (Z.to_nat limit)) in Hin, Hsorted.
  apply elem_of_app in Hin as [Hin|Hin].
  - left. exists (select_row env q (id, row)). split; [|done].
    by apply list_elem_of_fmap_2.
  - right. intros r Hr. apply list_elem_of_fmap in Hr as (r0 & -> & Hr0).
    apply (select_row_antitone env q r0 (id, row)).
    by eapply StronglySorted_app_1_elem_of.
Qed.

(** What a search returns of the table: rows of the table, each with its
    similarity, in descending similarity. *)
Lemma top_rows_of_table q (tbl : gmap string Row) (limit : Z) :
  Forall (fun r =>
            exists row, tbl !! sr_id r = Some row /\
              sr_content r = row_content row /\
              sr_document r = row_document row /\
              sr_page r = row_page row /\
              sr_similarity r =
                one_minus (cosine_distance env (row_embedding row) q) /\
              ivfflat_reaches env q tbl (sr_id r) = true)
    (select_row env q <$> nearest env q limit tbl) /\
  StronglySorted (fun a b => similarity_ge (sr_similarity a) (sr_similarity b))
    (select_row env q <$> nearest env q limit tbl).
Proof.
  split.
  - apply Forall_fmap, Forall_forall. intros [id row] Hin. simpl.
    apply list_elem_of_In, nearest_elem in Hin. simpl in Hin.
    exists row. unfold distance. simpl. tauto.
  - eapply StronglySorted_fmap; [|apply nearest_sorted].
    intros r1 r2. apply select_row_antitone.
Qed.

(** The runs of [generateResponse], by the call that ends them. *)
Lemma generateResponse_run userMessage conversationHistory w r w' :
  generateResponse env userMessage conversationHistory w = (r, w') ->
  document_chunks w' = document_chunks w /\
  ((exists e,
      r = Throw e /\
      trace w' = trace w ++ [OpenAIEmbeddingsCreate query_embedding_model userMessage]) \/
   (exists q rest e,
      openai_embeddings_create env query_embedding_model userMessage = Ok (q :: rest) /\
      r = Throw e /\
      trace w' = trace w ++ [OpenAIEmbeddingsCreate query_embedding_model userMessage;
                             PoolQuery (SelectSimilar q 5)]) \/
   (exists q rest rows,
      openai_embeddings_create env query_embedding_model userMessage = Ok (q :: rest) /\
      rows = select_row env q <$> nearest env q 5 (document_chunks w) /\
      trace w' = trace w ++
        [OpenAIEmbeddingsCreate query_embedding_model userMessage;
         PoolQuery (SelectSimilar q 5);
         OpenAIChatCompletionsCreate
           (completion_params
              (build_messages userMessage conversationHistory (build_context rows)))] /\
      ((exists e, r = Throw e) \/
       (exists completion,
          openai_chat_completions_create env
            (completion_params
               (build_messages userMessage conversationHistory (build_context rows)))
          = Ok completion /\
          stream_error completion = None /\
          r = Ok {| response :=
                      foldr (fun chunk rest => frame_content chunk +:+ rest) ""
                        (frames completion);
                    sources := rows |})))).
Proof.
  unfold generateResponse. intros H.
  unfold bind at 1, call in H. unfold bind at 1, lift at 1 in H.
  destruct (openai_embeddings_create env query_embedding_model userMessage)
    as [[|q rest]|e] eqn:Hembed.
  - run. outcome. split; [done|]. left. eauto.
  - unfold bind at 1 in H.
    match type of H with
    | context [searchSimilarChunks env q (Some 5) ?w0] =>
        destruct (searchSimilarChunks env q (Some 5) w0) as [rs ws] eqn:Hsearch
    end.
    destruct (searchSimilarChunks_run _ _ _ _ _ _ Hsearch)
      as (-> & [(-> & _)|((e & ->) & _)]); simpl in *.
    + unfold bind at 1, call in H. unfold bind at 1, lift at 1 in H.
      simpl in H. rewrite <- app_assoc in H. simpl in H.
      split.
      * destruct (openai_chat_completions_create env _) as [completion|e];
          [|by outcome].
        unfold bind at 1 in H. rewrite read_stream_run in H.
        destruct (stream_error completion); run; by outcome.
      * right. right. eexists q, rest, _. split; [done|]. split; [reflexivity|].
        destruct (openai_chat_completions_create env _) as [completion|e] eqn:Hchat.
        -- unfold bind at 1 in H. rewrite read_stream_run in H.
           destruct (stream_error completion) as [e|] eqn:Hstream; run; outcome.
           ++ simpl. rewrite <- app_assoc. split; [done|]. left. eauto.
           ++ simpl. rewrite <- app_assoc. split; [done|].
              right. exists completion. done.
        -- outcome. simpl. rewrite <- app_assoc. split; [done|]. left. eauto.
    + outcome. simpl. split; [done|]. right. left. exists q, rest, e.
      rewrite <- app_assoc. done.
  - outcome. split; [done|]. left. eauto.
Qed.

(** [generateResponse] always sends the embedding request first. *)
Lemma generateResponse_extends_trace userMessage conversationHistory w r w' :
  generateResponse env userMessage conversationHistory w = (r, w') ->
  trace w' ≠ trace w.
Proof.
  intros H. apply generateResponse_run in H as [_ H].
  assert (Hne : forall t : list Call, t ≠ [] -> trace w ++ t ≠ trace w).
  { intros t Ht Heq. apply Ht.
    apply (inj (app (trace w))). by rewrite app_nil_r. }
  destruct H as [(e & _ & ->)|[(q & rest & e & _ & _ & ->)
                               |(q & rest & rows & _ & _ & -> & _)]];
    by apply Hne.
Qed.


(** C9. Every embedding call of [processDocument] names
    [text-embedding-3-small], one call per chunk on its text when the
    document is processed, and every vector it stores is the answer to such
    a call; the one embedding call of [generateResponse] names
    [text-embedding-ada-002], and the vector it searches with is the answer
    to that call; the two names differ. *)
Theorem ingestion_and_query_embedding_models_differ :
  (forall filePath w r w',
     processDocument env filePath w = (r, w') ->
     exists t,
       trace w' = trace w ++ t /\
       Forall (eq "text-embedding-3-small") (embedding_models t) /\
       Forall (fun chunk =>
                 ai_embed env "text-embedding-3-small" (chunk_content chunk)
                 = Ok (chunk_embedding chunk)) (omap stored_chunk t) /\
       (forall pd, r = Ok pd -> pd_status pd = processed ->
          exists chunks,
            chunks_of env filePath = Ok chunks /\
            embedding_calls t =
              (fun chunk => ("text-embedding-3-small", text chunk)) <$> chunks)) /\
  (forall userMessage conversationHistory w r w',
     generateResponse env userMessage conversationHistory w = (r, w') ->
     exists t,
       trace w' = trace w ++ t /\
       embedding_calls t = [("text-embedding-ada-002", userMessage)] /\
       (forall q limit, PoolQuery (SelectSimilar q limit) ∈ t ->
          exists rest,
            openai_embeddings_create env "text-embedding-ada-002" userMessage
            = Ok (q :: rest))) /\
  "text-embedding-3-small" ≠ "text-embedding-ada-002".
Proof.
  split; [|split; [|done]].
  - intros filePath w r w' Hrun.
    destruct (processDocument_run env filePath w) as (rb & w1 & Hb & Hrun').
    rewrite Hrun in Hrun'. injection Hrun' as -> <-.
    destruct (body_run_trace _ _ _ _ _ Hb)
      as (t & k & Ht & _ & Hm & He & _ & Hok & _).
    exists t. repeat split; try done.
    intros pd [= <-] Hp. destruct rb as [pd|e]; [|done].
    destruct (Hok _ eq_refl) as (chunks & Hc & _ & _ & Hcalls & _). eauto.
  - intros userMessage conversationHistory w r w' Hrun.
    destruct (generateResponse_run _ _ _ _ _ Hrun)
      as (_ & [(e & _ & Ht)|[(q & rest & e & Hembed & _ & Ht)|
               (q & rest & rows & Hembed & _ & Ht & _)]]);
      eexists; (split; [exact Ht|]); (split; [reflexivity|]);
      intros q' limit Hin; apply list_elem_of_In in Hin; simpl in Hin;
      repeat (destruct Hin as [Hin|Hin]; try discriminate); try done;
      injection Hin as <- _; eauto.
Qed.

End Agent.

Section Http.

Variable env : Env.

(** The test [!message || typeof message !== 'string'] on such a message. *)
Lemma invalid_message (m : JsValue) :
  m = JUndefined \/ typeof m ≠ "string" ->
  negb (truthy m) || negb (String.eqb (typeof m) "string") = true.
Proof.
  intros [->|H]; [done|].
  destruct m; simpl; rewrite ?orb_true_r; done.
Qed.

(** C8. When the [message] of the body is absent or is not a string, the
    handler answers 400 and leaves the world as it was: nothing was sent
    to any service, whereas the agent, whenever invoked, sends at least
    its embedding request. *)
Theorem chat_rejects_non_string_message (req : Request) (w : World) :
  body_message (req_body req) = JUndefined \/
  typeof (body_message (req_body req)) ≠ "string" ->
  (exists resp,
     chat_handler env req w = (Ok resp, w) /\
     res_status resp = 400 /\
     resp = invalid_request) /\
  (forall userMessage conversationHistory w0 r w1,
     generateResponse env userMessage conversationHistory w0 = (r, w1) ->
     trace w1 ≠ trace w0).
Proof.
  intros Hmsg. split; [|apply generateResponse_extends_trace].
  exists invalid_request. split; [|done].
  unfold chat_handler, try_catch. by rewrite (invalid_message _ Hmsg).
Qed.

(** C10. The empty string is a string and is rejected all the same: the
    handler answers 400 and leaves the world as it was. *)
Theorem chat_rejects_empty_message (req : Request) (w : World) :
  body_message (req_body req) = JString "" ->
  typeof (body_message (req_body req)) = "string" /\
  truthy (body_message (req_body req)) = false /\
  exists resp,
    chat_handler env req w = (Ok resp, w) /\
    res_status resp = 400 /\
    resp = invalid_request.
Proof.
  intros Hmsg. rewrite Hmsg. split; [done|]. split; [done|].
  exists invalid_request. split; [|done].
  unfold chat_handler, try_catch. rewrite Hmsg. reflexivity.
Qed.

(** The handler itself never throws: what the agent throws becomes 500. *)
Lemma chat_handler_returns req w :
  exists resp w', chat_handler env req w = (Ok resp, w').
Proof.
  unfold chat_handler, try_catch.
  match goal with
  | |- context [match ?m w with _ => _ end] => destruct (m w) as [[resp|e] w']
  end; run; eauto.
Qed.

End Http.

Section ErrorHandling.

Variable env : Env.

(** C1, as the code has it. Every public method of
    [DocumentProcessingWorkflow] returns in every environment, with its
    default value ([{name, chunks: 0, status: 'error'}], the empty list,
    [null]) when what it calls throws. The methods of [VectorSearchTool]
    and [RAGAgent.generateResponse] catch nothing: an error of [pool.query]
    or of the embedding request is thrown to their caller, and so is, by
    [generateResponse], an error of the search it makes. *)
Theorem workflow_catches_tool_and_agent_propagate :
  (forall filePath w,
     exists pd w',
       processDocument env filePath w = (Ok pd, w') /\
       forall e w1,
         processDocument_body env filePath w = (Throw e, w1) ->
         pd = {| pd_name := basename env filePath ".pdf";
                 pd_chunks := 0;
                 pd_status := error |} /\ w' = w1) /\
  (forall documentsDir w,
     exists results w',
       processAllDocuments env documentsDir w = (Ok results, w') /\
       forall e, readdirSync env documentsDir = Throw e -> results = []) /\
  (forall query indexName limit w,
     exists found w',
       searchSimilarContent env query indexName limit w = (Ok found, w') /\
       (forall e, ai_embed env "text-embedding-3-small" query = Throw e ->
                  found = []) /\
       (forall embedding e,
          ai_embed env "text-embedding-3-small" query = Ok embedding ->
          vector_query env
            {| vq_indexName := indexName;
               vq_queryVector := embedding;
               vq_topK := default 5 limit;
               vq_includeVector := false;
               vq_minScore := 0%Qc |} = Throw e ->
          found = [])) /\
  (forall w,
     exists names w',
       listIndexes env w = (Ok names, w') /\
       forall e, vector_listIndexes env = Throw e -> names = []) /\
  (forall indexName w,
     exists stats w',
       getIndexStats env indexName w = (Ok stats, w') /\
       forall e, vector_describeIndex env indexName = Throw e -> stats = None) /\
  (forall e,
     pool_connect env = Throw e ->
     (forall q limit w, (searchSimilarChunks env q limit w).1 = Throw e) /\
     (forall chunk w, (storeChunk env chunk w).1 = Throw e) /\
     (forall w, (initializeDatabase env w).1 = Throw e) /\
     (forall w, (getProcessedDocuments env w).1 = Throw e)) /\
  (forall e userMessage conversationHistory w,
     openai_embeddings_create env "text-embedding-ada-002" userMessage = Throw e ->
     (generateResponse env userMessage conversationHistory w).1 = Throw e) /\
  (forall e userMessage conversationHistory w q rest,
     openai_embeddings_create env "text-embedding-ada-002" userMessage
     = Ok (q :: rest) ->
     pool_connect env = Throw e ->
     (generateResponse env userMessage conversationHistory w).1 = Throw e).
Proof.
  split; [|split; [|split; [|split; [|split; [|split; [|split]]]]]].
  - intros filePath w. unfold processDocument, try_catch.
    destruct (processDocument_body env filePath w) as [[pd|e] w'] eqn:Hb.
    + exists pd, w'. split; [done|]. intros ? ? [=].
    + eexists _, w'. split; [reflexivity|]. by intros ? ? [= _ ->].
  - intros documentsDir w. unfold processAllDocuments.
    destruct (readdirSync env documentsDir) as [files|e] eqn:Hdir.
    + destruct (process_files env documentsDir _ [] w) as [[r results] w'].
      exists results, w'. split; [done|]. intros ? [=].
    + exists [], w. done.
  - intros query indexName limit w. unfold searchSimilarContent, try_catch.
    unfold bind at 1. rewrite embed_run. fold embedding_model.
    destruct (ai_embed env embedding_model query) as [embedding|e] eqn:He.
    + unfold vectorStore_query, bind, call, lift.
      destruct (vector_query env _) as [found|e] eqn:Hq; run; eexists _, _;
        (split; [reflexivity|]); (split; [intros ? [=]|]);
        intros embedding' e' [= <-] Hq'; congruence.
    + run. eexists _, _. split; [reflexivity|]. split; [done|]. intros ? ? [=].
  - intros w. unfold listIndexes, try_catch, bind, call, lift.
    destruct (vector_listIndexes env) as [names|e]; run; eexists _, _;
      (split; [reflexivity|]); [intros ? [=]|done].
  - intros indexName w. unfold getIndexStats, try_catch.
    unfold bind at 1, call. unfold bind at 1, lift.
    destruct (vector_describeIndex env indexName) as [stats|e]; run; eexists _, _;
      (split; [reflexivity|]); [intros ? [=]|done].
  - intros e H. split; [|split; [|split]].
    + intros q limit w. unfold searchSimilarChunks. unfold bind at 1.
      by rewrite (pool_query_throw _ _ _ _ H).
    + intros chunk w. unfold storeChunk. unfold bind at 1.
      by rewrite (pool_query_throw _ _ _ _ H).
    + intros w. unfold initializeDatabase. unfold bind at 1.
      by rewrite (pool_query_throw _ _ _ _ H).
    + intros w. unfold getProcessedDocuments. unfold bind at 1.
      by rewrite (pool_query_throw _ _ _ _ H).
  - intros e userMessage conversationHistory w He. unfold generateResponse.
    unfold bind at 1, call. unfold bind at 1, lift at 1.
    fold query_embedding_model in He. by rewrite He.
  - intros e userMessage conversationHistory w q rest He Hpool.
    unfold generateResponse.
    unfold bind at 1, call. unfold bind at 1, lift at 1.
    fold query_embedding_model in He. rewrite He.
    unfold bind at 1, searchSimilarChunks. unfold bind at 1.
    by rewrite (pool_query_throw _ _ _ _ Hpool).
Qed.

End ErrorHandling.

(** * The theorems at work on the concrete environment *)

Lemma storeChunk_overwrites_content_and_embedding_only_witness :
  document_chunks (storeChunk Demo.env Demo.a_chunk Demo.stocked_world).2
    !! "1977-chunk-0"
  = Some {| row_content := "float";
            row_document := "1977";
            row_page := 3;
            row_embedding := Demo.vector_of "float" |}.
Proof.
  assert (Hrun : storeChunk Demo.env Demo.a_chunk Demo.stocked_world
                 = (Ok tt, (storeChunk Demo.env Demo.a_chunk Demo.stocked_world).2))
    by (vm_compute; reflexivity).
  assert (Hold : document_chunks Demo.stocked_world !! chunk_id Demo.a_chunk
                 = Some Demo.a_row)
    by (vm_compute; reflexivity).
  exact (proj1 (storeChunk_overwrites_content_and_embedding_only
                  Demo.env Demo.a_chunk Demo.a_row Demo.stocked_world
                  (Ok tt) _ Hold Hrun)).
Defined.

Lemma searchSimilarChunks_limit_similarity_order_witness :
  exists rows w',
    searchSimilarChunks Demo.env (Demo.vector_of "float") (Some 1) Demo.once
    = (Ok rows, w') /\
    Z.of_nat (length rows) <= 1.
Proof.
  destruct (searchSimilarChunks_limit_similarity_order
              Demo.env (Demo.vector_of "float") 1 Demo.once) as [Hrows Hreturns].
  destruct Hreturns as (rows & w' & Hrun).
  - reflexivity.
  - discriminate.
  - lia.
  - apply same_dimension_each. vm_compute. reflexivity.
  - reflexivity.
  - exists rows, w'. split; [exact Hrun|]. exact (proj1 (Hrows rows w' Hrun)).
Defined.

Lemma processAllDocuments_one_result_per_pdf_witness :
  exists results w',
    processAllDocuments Demo.env "docs" Demo.empty_world = (Ok results, w') /\
    length results = 2%nat /\
    pd_status <$> results = [processed; error].
Proof.
  destruct (processAllDocuments_one_result_per_pdf Demo.env "docs"
              ["1977.pdf"; "broken.pdf"; "notes.txt"] Demo.empty_world eq_refl)
    as (_ & results & w' & Hrun & Hlen & _).
  exists results, w'. split; [exact Hrun|]. split; [exact Hlen|].
  vm_compute in Hrun. injection Hrun as <- _. reflexivity.
Defined.

Lemma processDocument_chunk_ids_format_and_unique_witness :
  processDocument Demo.env_upsert_refused "docs/1977.pdf" Demo.empty_world
  = (Ok Demo.failed_1977, Demo.refused_once) /\
  exists t,
    trace Demo.refused_once = trace Demo.empty_world ++ t /\
    stored_ids t = ["1977-chunk-0"; "1977-chunk-1"] /\
    NoDup (stored_ids t) /\
    vector_ids t = Some <$> stored_ids t.
Proof.
  assert (Hrun : processDocument Demo.env_upsert_refused "docs/1977.pdf"
                   Demo.empty_world
                 = (Ok Demo.failed_1977, Demo.refused_once))
    by (vm_compute; reflexivity).
  assert (Hstores : stores_all Demo.env_upsert_refused "docs/1977.pdf"
                      Demo.chunks_1977)
    by stores_all_chunks.
  split; [exact Hrun|].
  destruct (processDocument_chunk_ids_format_and_unique
              Demo.env_upsert_refused "docs/1977.pdf" Demo.empty_world
              Demo.failed_1977 Demo.refused_once Hrun)
    as (t & k & Ht & Hids & Hnodup & _ & Hall & _).
  destruct (Hall _ Hstores) as [Hk Hv].
  exists t. split; [exact Ht|]. split; [|split; [exact Hnodup|exact Hv]].
  subst k. exact Hids.
Defined.

Lemma reingestion_same_ids_same_rows_witness :
  pd_status Demo.failed_1977 = error /\
  document_chunks Demo.refused_twice = document_chunks Demo.refused_once.
Proof.
  assert (Hsame : same_content Demo.env_upsert_refused Demo.env_upsert_refused)
    by (split; reflexivity).
  assert (Hstores : stores_all Demo.env_upsert_refused "docs/1977.pdf"
                      Demo.chunks_1977)
    by stores_all_chunks.
  assert (Hrun1 : processDocument Demo.env_upsert_refused "docs/1977.pdf"
                    Demo.empty_world
                  = (Ok Demo.failed_1977, Demo.refused_once))
    by (vm_compute; reflexivity).
  assert (Hrun2 : processDocument Demo.env_upsert_refused "docs/1977.pdf"
                    Demo.refused_once
                  = (Ok Demo.failed_1977, Demo.refused_twice))
    by (vm_compute; reflexivity).
  split; [reflexivity|].
  exact (proj1 (reingestion_same_ids_same_rows
                  Demo.env_upsert_refused Demo.env_upsert_refused "docs/1977.pdf"
                  Demo.chunks_1977 Demo.empty_world Demo.failed_1977
                  Demo.refused_once Demo.failed_1977 Demo.refused_twice
                  Hsame Hstores Hrun1 Hrun2)).
Defined.


Lemma chat_rejects_non_string_message_witness :
  exists resp,
    chat_handler Demo.env Demo.number_request Demo.once = (Ok resp, Demo.once) /\
    res_status resp = 400.
Proof.
  destruct (chat_rejects_non_string_message Demo.env Demo.number_request Demo.once)
    as [(resp & Hrun & Hstatus & _) _].
  - right. simpl. discriminate.
  - exists resp. split; [exact Hrun|exact Hstatus].
Defined.

Lemma chat_rejects_empty_message_witness :
  exists resp,
    chat_handler Demo.env Demo.empty_request Demo.once = (Ok resp, Demo.once) /\
    res_status resp = 400.
Proof.
  destruct (chat_rejects_empty_message Demo.env Demo.empty_request Demo.once eq_refl)
    as (_ & _ & resp & Hrun & Hstatus & _).
  exists resp. split; [exact Hrun|exact Hstatus].
Defined.

Lemma ingestion_and_query_embedding_models_differ_witness :
  exists t,
    trace Demo.once = trace Demo.empty_world ++ t /\
    embedding_calls t =
      [("text-embedding-3-small", "float"); ("text-embedding-3-small", "insurance")].
Proof.
  assert (Hrun : processDocument Demo.env "docs/1977.pdf" Demo.empty_world
                 = (Ok Demo.processed_1977, Demo.once))
    by (vm_compute; reflexivity).
  destruct (proj1 (ingestion_and_query_embedding_models_differ Demo.env)
              "docs/1977.pdf" Demo.empty_world _ Demo.once Hrun)
    as (t & Ht & _ & _ & Hcalls).
  destruct (Hcalls Demo.processed_1977 eq_refl eq_refl) as (chunks & Hchunks & Hc).
  exists t. split; [exact Ht|].
  vm_compute in Hchunks. injection Hchunks as <-. exact Hc.
Defined.

Lemma workflow_catches_tool_and_agent_propagate_witness :
  exists w',
    processDocument Demo.env "docs/broken.pdf" Demo.empty_world
    = (Ok {| pd_name := "broken"; pd_chunks := 0; pd_status := error |}, w').
Proof.
  destruct (proj1 (workflow_catches_tool_and_agent_propagate Demo.env)
              "docs/broken.pdf" Demo.empty_world) as (pd & w' & Hrun & Hcaught).
  destruct (Hcaught {| message := Some "Invalid PDF structure" |} Demo.empty_world)
    as [-> _].
  - vm_compute. reflexivity.
  - exists w'. exact Hrun.
Defined.

(** C1, as the spec has it, fails: with the embedding endpoint down
    [generateResponse] returns nothing, it throws; and with the database
    unreachable so do [storeChunk] and [searchSimilarChunks]. *)
Lemma generateResponse_failure_reaches_caller :
  generateResponse Demo.env_openai_down "What is float?" [] Demo.empty_world
  = (Throw Demo.service_down,
     logged Demo.empty_world
       [OpenAIEmbeddingsCreate "text-embedding-ada-002" "What is float?"]) /\
  (storeChunk Demo.env_pg_down Demo.a_chunk Demo.empty_world).1
  = Throw {| message := Some "connect ECONNREFUSED" |} /\
  (searchSimilarChunks Demo.env_pg_down (Demo.vector_of "float") (Some 5)
     Demo.empty_world).1
  = Throw {| message := Some "connect ECONNREFUSED" |}.
Proof. repeat split; vm_compute; reflexivity. Qed.


(** * More of the vector store *)

Section VectorStore.

Variable env : Env.

(** The ids of the rows the query selects are the keys it took them from. *)
Lemma select_row_ids q (l : list (string * Row)) :
  sr_id <$> (select_row env q <$> l) = l.*1.
Proof. rewrite <- list_fmap_compose. by apply list_fmap_ext. Qed.

(** The rows reached are some of the rows of the table, in its order. *)
Lemma reached_sublist q (tbl : gmap string Row) :
  reached env q tbl `sublist_of` map_to_list tbl.
Proof.
  unfold reached. induction (map_to_list tbl) as [|r l IH]; simpl; [constructor|].
  destruct (ivfflat_reaches env q tbl r.1); by constructor.
Qed.

Lemma reached_length q (tbl : gmap string Row) :
  (length (reached env q tbl) <= size tbl)%nat.
Proof. rewrite <- length_map_to_list. apply sublist_length, reached_sublist. Qed.

Lemma ordered_rows_NoDup q (tbl : gmap string Row) :
  NoDup (merge_sort (distance_le env q) (reached env q tbl)).*1.
Proof.
  rewrite merge_sort_Permutation.
  apply (sublist_NoDup _ (map_to_list tbl).*1); [apply NoDup_fst_map_to_list|].
  apply fmap_sublist, reached_sublist.
Qed.

(** With a limit no smaller than the number of rows reached, every row
    reached is returned. *)
Lemma all_rows_returned q (tbl : gmap string Row) (limit : Z) id row :
  (length (reached env q tbl) <= Z.to_nat limit)%nat ->
  tbl !! id = Some row ->
  ivfflat_reaches env q tbl id = true ->
  select_row env q (id, row) ∈ select_row env q <$> nearest env q limit tbl.
Proof.
  intros Hn Hrow Hreach. apply list_elem_of_fmap_2. unfold nearest. rewrite take_ge.
  - by apply ordered_rows_elem.
  - by rewrite (Permutation_length (merge_sort_Permutation _ _)).
Qed.

Lemma upsert_idempotent chunk (tbl : gmap string Row) :
  upsert chunk (upsert chunk tbl) = upsert chunk tbl.
Proof.
  destruct (tbl !! chunk_id chunk) as [old|] eqn:Hold.
  - eapply upsert_same; [by apply upsert_lookup_existing|done..].
  - eapply upsert_same; [by apply upsert_lookup_fresh|done..].
Qed.

(** X1. Of the [m] rows the scan of the index reaches,
    [searchSimilarChunks] returns [min K m], each of them a row reached;
    none of the reached rows left out is nearer to the query than a row
    returned, and every reached row is returned when [K] is at least the
    number of rows in the table. *)
Theorem searchSimilarChunks_returns_the_nearest
    (q : list Qc) (K : Z) (w : World) (rows : list SearchResult) (w' : World) :
  searchSimilarChunks env q (Some K) w = (Ok rows, w') ->
  length rows
  = (Z.to_nat K `min` length (reached env q (document_chunks w)))%nat /\
  Forall (fun r => ivfflat_reaches env q (document_chunks w) (sr_id r) = true)
    rows /\
  (forall id row,
     document_chunks w !! id = Some row ->
     ivfflat_reaches env q (document_chunks w) id = true ->
     (exists r, r ∈ rows /\ sr_id r = id) \/
     (forall r, r ∈ rows ->
        similarity_ge (sr_similarity r)
          (one_minus (cosine_distance env (row_embedding row) q)))) /\
  (Z.of_nat (size (document_chunks w)) <= K ->
   forall id row,
     document_chunks w !! id = Some row ->
     ivfflat_reaches env q (document_chunks w) id = true ->
     exists r, r ∈ rows /\ sr_id r = id /\ sr_content r = row_content row).
Proof.
  intros Hrun.
  destruct (searchSimilarChunks_run _ _ _ _ _ _ Hrun)
    as (_ & [(Hr & _)|((e & ?) & _)]); [|done].
  simpl in Hr. injection Hr as ->. split; [apply top_rows_length|]. split; [|split].
  - destruct (top_rows_of_table env q (document_chunks w) K) as [Hof _].
    rewrite Forall_forall in Hof |- *. intros r Hr.
    destruct (Hof r Hr) as (row & _ & _ & _ & _ & _ & Hreach). exact Hreach.
  - intros id row Hrow Hreach. by apply top_rows_nearest.
  - intros HK id row Hrow Hreach. exists (select_row env q (id, row)).
    split; [|done]. apply all_rows_returned; [|done..].
    pose proof (reached_length q (document_chunks w)). lia.
Qed.

(** X2. No two rows [searchSimilarChunks] returns have the same id, and the
    search writes nothing: whatever its outcome, the table is the same and
    the one statement sent is the [SELECT]. *)
Theorem searchSimilarChunks_distinct_ids_and_read_only
    (q : list Qc) (limit : option Z) (w : World)
    (r : result (list SearchResult)) (w' : World) :
  searchSimilarChunks env q limit w = (r, w') ->
  document_chunks w' = document_chunks w /\
  trace w' = trace w ++ [PoolQuery (SelectSimilar q (default 5 limit))] /\
  (forall rows, r = Ok rows -> NoDup (sr_id <$> rows)).
Proof.
  intros Hrun.
  destruct (searchSimilarChunks_run _ _ _ _ _ _ Hrun) as (-> & Hr).
  split; [done|]. split; [done|]. intros rows ->.
  destruct Hr as [(Hr & _)|((e & ?) & _)]; [|done].
  injection Hr as ->. rewrite select_row_ids.
  eapply sublist_NoDup; [apply ordered_rows_NoDup|].
  apply fmap_sublist. unfold nearest. apply sublist_take.
Qed.

(** X3. [storeChunk] of a chunk whose id is new inserts the row with its
    five columns as given, the table grows by one row and no other row
    changes. *)
Theorem storeChunk_inserts_new_row (chunk : DocumentChunk) (w w' : World) :
  document_chunks w !! chunk_id chunk = None ->
  storeChunk env chunk w = (Ok tt, w') ->
  document_chunks w' !! chunk_id chunk =
    Some {| row_content := chunk_content chunk;
            row_document := chunk_document chunk;
            row_page := chunk_page chunk;
            row_embedding := chunk_embedding chunk |} /\
  size (document_chunks w') = S (size (document_chunks w)) /\
  (forall j, j ≠ chunk_id chunk ->
             document_chunks w' !! j = document_chunks w !! j).
Proof.
  intros Hnew Hrun.
  destruct (storeChunk_run _ _ _ _ _ Hrun) as (_ & [(_ & _ & ->)|((e & ?) & _)]);
    [|done].
  split; [by apply upsert_lookup_fresh|]. split.
  - unfold upsert. rewrite Hnew. by apply map_size_insert_None.
  - intros j Hj. by apply upsert_lookup_ne.
Qed.

(** X4. Storing a chunk a second time is accepted like the first and
    leaves the table as the first store left it. *)
Theorem storeChunk_twice_is_once
    (chunk : DocumentChunk) (w w1 : World) (r : result unit) (w2 : World) :
  storeChunk env chunk w = (Ok tt, w1) ->
  storeChunk env chunk w1 = (r, w2) ->
  r = Ok tt /\ document_chunks w2 = document_chunks w1.
Proof.
  intros Hrun1 Hrun2.
  destruct (storeChunk_run _ _ _ _ _ Hrun1) as (_ & [(_ & Hs & Hd1)|((e & ?) & _)]);
    [|done].
  rewrite (storeChunk_ok _ _ w1 Hs) in Hrun2. injection Hrun2 as <- <-.
  split; [done|]. simpl. rewrite Hd1. apply upsert_idempotent.
Qed.

(** X5. A chunk that was stored is found again by every search whose scan
    reaches its row and whose limit covers the table: the search returns a
    row with the chunk's id and content, and with the similarity of the
    chunk's embedding to the query. *)
Theorem stored_chunk_is_found
    (chunk : DocumentChunk) (q : list Qc) (K : Z)
    (w w1 : World) (rows : list SearchResult) (w2 : World) :
  storeChunk env chunk w = (Ok tt, w1) ->
  searchSimilarChunks env q (Some K) w1 = (Ok rows, w2) ->
  ivfflat_reaches env q (document_chunks w1) (chunk_id chunk) = true ->
  Z.of_nat (size (document_chunks w1)) <= K ->
  exists r,
    r ∈ rows /\
    sr_id r = chunk_id chunk /\
    sr_content r = chunk_content chunk /\
    sr_similarity r = one_minus (cosine_distance env (chunk_embedding chunk) q).
Proof.
  intros Hstore Hsearch Hreach HK.
  destruct (storeChunk_run _ _ _ _ _ Hstore) as (_ & [(_ & _ & Hd)|((e & ?) & _)]);
    [|done].
  destruct (searchSimilarChunks_run _ _ _ _ _ _ Hsearch)
    as (_ & [(Hr & _)|((e & ?) & _)]); [|done].
  simpl in Hr. injection Hr as ->.
  assert (Hrow : exists row,
            document_chunks w1 !! chunk_id chunk = Some row /\
            row_content row = chunk_content chunk /\
            row_embedding row = chunk_embedding chunk).
  { rewrite Hd. destruct (document_chunks w !! chunk_id chunk) as [old|] eqn:Hold.
    - exists (overwritten chunk old). by rewrite (upsert_lookup_existing _ _ _ Hold).
    - eexists. by rewrite (upsert_lookup_fresh _ _ Hold). }
  destruct Hrow as (row & Hrow & Hc & He).
  exists (select_row env q (chunk_id chunk, row)).
  split.
  - apply all_rows_returned; [|done..].
    pose proof (reached_length q (document_chunks w1)). lia.
  - unfold select_row, distance. simpl. by rewrite Hc, He.
Qed.

(** The documents [getProcessedDocuments] returns, read off the table. *)
Lemma getProcessedDocuments_run (w : World) (documents : list string) (w' : World) :
  getProcessedDocuments env w = (Ok documents, w') ->
  document_chunks w' = document_chunks w /\
  NoDup documents /\
  forall d, d ∈ documents <->
            exists id row, document_chunks w !! id = Some row /\ row_document row = d.
Proof.
  unfold getProcessedDocuments. unfold bind at 1. rewrite pool_query_run.
  destruct (pool_connect env) as [[]|e]; [|done].
  run. intros [= <- <-]. split; [done|]. split; [apply NoDup_remove_dups|].
  intros d. rewrite elem_of_remove_dups, list_elem_of_fmap. split.
  - intros ([id row] & -> & Hin). apply elem_of_map_to_list in Hin. eauto.
  - intros (id & row & Hrow & <-). exists (id, row).
    split; [done|]. by apply elem_of_map_to_list.
Qed.



End VectorStore.

(** * More of the ingestion *)

(** ** Chunk ids across documents *)

Lemma ascii_list_app (a b : string) :
  String.list_ascii_of_string (a +:+ b)
  = String.list_ascii_of_string a ++ String.list_ascii_of_string b.
Proof.
  induction a as [|x a IH]; [done|].
  change (x :: String.list_ascii_of_string (a +:+ b)
          = x :: (String.list_ascii_of_string a ++ String.list_ascii_of_string b)).
  by rewrite IH.
Qed.

Lemma ascii_list_inj (a b : string) :
  String.list_ascii_of_string a = String.list_ascii_of_string b -> a = b.
Proof.
  intros H.
  rewrite <- (String.string_of_list_ascii_of_string a), <- (String.string_of_list_ascii_of_string b).
  by rewrite H.
Qed.

Lemma pretty_N_char_not_dash (x : N) : pretty_N_char x ≠ dash.
Proof. unfold pretty_N_char, dash. by repeat case_match. Qed.

Lemma pretty_N_go_no_dash (x : N) (s : string) :
  Forall (fun c => c ≠ dash) (String.list_ascii_of_string s) ->
  Forall (fun c => c ≠ dash) (String.list_ascii_of_string (pretty_N_go x s)).
Proof.
  revert s. induction (N.lt_wf_0 x) as [x _ IH]; intros s Hs.
  assert (x = 0 \/ 0 < x)%N as [->|?] by lia.
  - by rewrite pretty_N_go_0.
  - rewrite pretty_N_go_step by done. apply IH; [by apply N.div_lt|].
    simpl. constructor; [apply pretty_N_char_not_dash|done].
Qed.

(** The decimal writing of an index has no [-] in it. *)
Lemma pretty_nat_no_dash (i : nat) :
  Forall (fun c => c ≠ dash) (String.list_ascii_of_string (pretty i)).
Proof.
  unfold pretty, pretty_nat, pretty, pretty_N. case_decide.
  - repeat constructor. done.
  - apply pretty_N_go_no_dash. constructor.
Qed.

(** A list is cut at its first [-] in one way only. *)
Lemma first_dash_unique (l1 l2 r1 r2 : list Ascii.ascii) :
  Forall (fun c => c ≠ dash) l1 ->
  Forall (fun c => c ≠ dash) l2 ->
  l1 ++ dash :: r1 = l2 ++ dash :: r2 ->
  l1 = l2 /\ r1 = r2.
Proof.
  revert l2. induction l1 as [|c l1 IH]; intros [|c' l2] H1 H2 H; simpl in H.
  - by injection H as ->.
  - injection H as <- _. by inversion H2.
  - injection H as -> _. by inversion H1.
  - injection H as -> H. inversion H1; inversion H2; subst.
    destruct (IH l2) as [-> ->]; done.
Qed.

(** An id is the id of one document and one index only. *)
Lemma chunkId_split (d1 d2 : string) (i1 i2 : nat) :
  chunkId d1 i1 = chunkId d2 i2 -> d1 = d2 /\ i1 = i2.
Proof.
  intros H. apply (f_equal String.list_ascii_of_string) in H.
  unfold chunkId in H. rewrite !ascii_list_app in H.
  assert (H' :
    (String.list_ascii_of_string d1 ++ String.list_ascii_of_string "-chunk")
      ++ dash :: String.list_ascii_of_string (pretty i1)
    = (String.list_ascii_of_string d2 ++ String.list_ascii_of_string "-chunk")
      ++ dash :: String.list_ascii_of_string (pretty i2)).
  { rewrite <- !app_assoc. exact H. }
  clear H. rename H' into H.
  apply (f_equal reverse) in H.
  rewrite (reverse_app (String.list_ascii_of_string d1 ++ _)),
    (reverse_app (String.list_ascii_of_string d2 ++ _)), !reverse_cons in H.
  rewrite <- !app_assoc in H. simpl in H.
  apply first_dash_unique in H as [Hp Hd];
    [|apply Forall_reverse, pretty_nat_no_dash..].
  apply (f_equal reverse) in Hp, Hd. rewrite !reverse_involutive in Hp, Hd.
  split.
  - apply ascii_list_inj. by eapply app_inv_tail.
  - apply (inj pretty). by apply ascii_list_inj.
Qed.

(** X8. Two chunk ids are equal only when they are the id of the same
    document at the same index: the ids of different documents never
    collide, even when a document name itself contains [-chunk-]. *)
Theorem chunk_ids_never_collide (d1 d2 : string) (i1 i2 : nat) :
  chunkId d1 i1 = chunkId d2 i2 <-> d1 = d2 /\ i1 = i2.
Proof.
  split.
  - apply chunkId_split.
  - by intros [-> ->].
Qed.

(** ** What ingestion does to the table *)

Section Ingestion.

Variable env : Env.

Lemma upsert_keeps chunk (tbl : gmap string Row) id row :
  tbl !! id = Some row ->
  exists row',
    upsert chunk tbl !! id = Some row' /\
    row_document row' = row_document row /\
    row_page row' = row_page row.
Proof.
  intros Hrow. destruct (decide (id = chunk_id chunk)) as [->|Hne].
  - exists (overwritten chunk row). by rewrite (upsert_lookup_existing _ _ _ Hrow).
  - exists row. by rewrite upsert_lookup_ne.
Qed.

Lemma upsert_well_keyed chunk (tbl : gmap string Row) i :
  chunk_id chunk = chunkId (chunk_document chunk) i ->
  well_keyed tbl -> well_keyed (upsert chunk tbl).
Proof.
  intros Hid Hwk id row Hrow.
  destruct (decide (id = chunk_id chunk)) as [->|Hne].
  - destruct (tbl !! chunk_id chunk) as [old|] eqn:Hold.
    + rewrite (upsert_lookup_existing _ _ _ Hold) in Hrow. injection Hrow as <-.
      simpl. by apply Hwk.
    + rewrite (upsert_lookup_fresh _ _ Hold) in Hrow. injection Hrow as <-.
      simpl. eauto.
  - rewrite upsert_lookup_ne in Hrow by done. by apply Hwk.
Qed.

(** The loop removes no row and keeps [document] and [page] of the rows
    it finds. *)
Lemma loop_run_keeps documentName chunks i st w r w' :
  loop_run env documentName chunks i st w r w' ->
  forall id row,
    document_chunks w !! id = Some row ->
    exists row',
      document_chunks w' !! id = Some row' /\
      row_document row' = row_document row /\
      row_page row' = row_page row.
Proof.
  induction 1 as [i st w|chunk rest i st w e He|chunk rest i st w embedding e He Hn
                 |chunk rest i st w embedding r w' He Hs Hrun IH];
    intros id row Hrow; eauto.
  destruct (upsert_keeps (documentChunk documentName i chunk embedding) _ _ _ Hrow)
    as (row1 & Hrow1 & Hd1 & Hp1).
  destruct (IH id row1 Hrow1) as (row' & Hrow' & Hd & Hp).
  exists row'. split; [done|]. split; congruence.
Qed.

Lemma loop_run_well_keyed documentName chunks i st w r w' :
  loop_run env documentName chunks i st w r w' ->
  well_keyed (document_chunks w) -> well_keyed (document_chunks w').
Proof.
  induction 1 as [i st w|chunk rest i st w e He|chunk rest i st w embedding e He Hn
                 |chunk rest i st w embedding r w' He Hs Hrun IH];
    intros Hwk; try done.
  apply IH. simpl. by eapply upsert_well_keyed.
Qed.

(** The rows of the chunks before the first chunk that fails are in the
    table when the loop ends, however it ends. *)
Lemma loop_run_partial documentName chunks i st w r w' :
  loop_run env documentName chunks i st w r w' ->
  forall k,
    (forall j chunk, (j < k)%nat -> chunks !! j = Some chunk ->
       exists embedding,
         ai_embed env embedding_model (text chunk) = Ok embedding /\
         storable env (documentChunk documentName (i + j) chunk embedding)) ->
    forall j chunk, (j < k)%nat -> chunks !! j = Some chunk ->
      exists row,
        document_chunks w' !! chunkId documentName (i + j) = Some row /\
        row_content row = text chunk.
Proof.
  induction 1 as [i st w|chunk rest i st w e He|chunk rest i st w embedding e He Hn
                 |chunk rest i st w embedding r w' He Hs Hrun IH];
    intros k Hgood j c Hj Hc.
  - done.
  - destruct (Hgood 0%nat chunk) as (e' & He' & _); [lia|done|congruence].
  - destruct (Hgood 0%nat chunk) as (e' & He' & Hs'); [lia|done|].
    rewrite Nat.add_0_r in Hs'. congruence.
  - destruct j as [|j]; simpl in Hc.
    + injection Hc as <-. rewrite Nat.add_0_r.
      rewrite (loop_run_frame _ _ _ _ _ _ _ _ Hrun); simpl.
      * set (dc := documentChunk documentName i chunk embedding).
        destruct (document_chunks w !! chunk_id dc) as [old|] eqn:Hold.
        -- exists (overwritten dc old).
           split; [by apply upsert_lookup_existing|done].
        -- eexists. split; [by apply upsert_lookup_fresh|done].
      * intros k' Hk' Heq. apply chunkId_inj in Heq. lia.
    + destruct k as [|k]; [lia|].
      destruct (IH k) with (j := j) (chunk := c) as (row & Hrow & Hcontent);
        [|lia|done|].
      * intros j' c' Hj' Hc'.
        destruct (Hgood (S j') c') as (e' & He' & Hs'); [lia|done|].
        exists e'. by replace (S i + j')%nat with (i + S j')%nat by lia.
      * exists row. by replace (i + S j)%nat with (S i + j)%nat by lia.
Qed.

(** The table after a run of the body: the table before, or the table a
    run of the loop left. *)
Lemma body_run_table filePath w r w' :
  body_run env filePath w r w' ->
  document_chunks w' = document_chunks w \/
  exists chunks rl wl,
    chunks_of env filePath = Ok chunks /\
    loop_run env (basename env filePath ".pdf") chunks 0 initial_locals
      (logged w [VectorCreateIndex (basename env filePath ".pdf") 1536]) rl wl /\
    document_chunks w' = document_chunks wl /\
    (forall pd, r = Ok pd -> exists st, rl = Ok st).
Proof.
  destruct 1 as [e Hc|chunks e Hc Hi Hm|chunks e wl Hc Hr Hl
                |chunks st wl e Hc Hr Hl Hu|chunks st wl ids Hc Hr Hl Hu];
    [by left|by left|right; eexists chunks, _, wl..];
    (split; [exact Hc|]); (split; [exact Hl|]); (split; [done|]);
    first [by intros ? [=]|eauto].
Qed.

(** X9. [processDocument] writes no row but those of the ids of its own
    document: any other row, and so every row of another document, is
    after it what it was before. *)
Theorem processDocument_touches_only_its_own_ids
    (filePath : string) (w : World) (r : result ProcessedDocument) (w' : World) :
  processDocument env filePath w = (r, w') ->
  (forall id,
     (forall i, id ≠ chunkId (basename env filePath ".pdf") i) ->
     document_chunks w' !! id = document_chunks w !! id) /\
  (forall other i,
     other ≠ basename env filePath ".pdf" ->
     document_chunks w' !! chunkId other i = document_chunks w !! chunkId other i).
Proof.
  intros Hrun.
  destruct (processDocument_run env filePath w) as (rb & w1 & Hb & Hrun').
  rewrite Hrun in Hrun'. injection Hrun' as -> <-.
  assert (Hframe : forall id,
            (forall i, id ≠ chunkId (basename env filePath ".pdf") i) ->
            document_chunks w' !! id = document_chunks w !! id).
  { intros id Hid.
    destruct (body_run_table _ _ _ _ Hb) as [->|(chunks & rl & wl & _ & Hl & -> & _)];
      [done|].
    rewrite (loop_run_frame _ _ _ _ _ _ _ _ Hl); [done|]. intros; apply Hid. }
  split; [exact Hframe|].
  intros other i Hother. apply Hframe. intros i' Heq.
  apply chunkId_split in Heq as [? _]. done.
Qed.

(** X10. [processDocument] deletes nothing: a row that was in the table is
    still there, under the same id, with the [document] and the [page] it
    had; so the rows a document had beyond its new number of chunks stay. *)
Theorem processDocument_never_deletes
    (filePath : string) (w : World) (r : result ProcessedDocument) (w' : World)
    (id : string) (row : Row) :
  processDocument env filePath w = (r, w') ->
  document_chunks w !! id = Some row ->
  exists row',
    document_chunks w' !! id = Some row' /\
    row_document row' = row_document row /\
    row_page row' = row_page row.
Proof.
  intros Hrun Hrow.
  destruct (processDocument_run env filePath w) as (rb & w1 & Hb & Hrun').
  rewrite Hrun in Hrun'. injection Hrun' as -> <-.
  destruct (body_run_table _ _ _ _ Hb) as [->|(chunks & rl & wl & _ & Hl & -> & _)];
    [eauto|].
  by apply (loop_run_keeps _ _ _ _ _ _ _ Hl).
Qed.

Lemma processDocument_well_keyed filePath w r w' :
  processDocument env filePath w = (r, w') ->
  well_keyed (document_chunks w) -> well_keyed (document_chunks w').
Proof.
  intros Hrun Hwk.
  destruct (processDocument_run env filePath w) as (rb & w1 & Hb & Hrun').
  rewrite Hrun in Hrun'. injection Hrun' as -> <-.
  destruct (body_run_table _ _ _ _ Hb) as [->|(chunks & rl & wl & _ & Hl & -> & _)];
    [done|].
  by apply (loop_run_well_keyed _ _ _ _ _ _ _ Hl).
Qed.

Lemma process_files_well_keyed documentsDir pdfFiles :
  forall results w r results' w',
    process_files env documentsDir pdfFiles results w = (r, results', w') ->
    well_keyed (document_chunks w) -> well_keyed (document_chunks w').
Proof.
  induction pdfFiles as [|file rest IH]; intros results w r results' w' Hfiles Hwk;
    simpl in Hfiles.
  - by injection Hfiles as _ _ <-.
  - destruct (processDocument env (join env documentsDir file) w)
      as [[pd|e] w1] eqn:Hrun.
    + eapply IH; [exact Hfiles|]. by eapply processDocument_well_keyed.
    + injection Hfiles as _ _ <-. by eapply processDocument_well_keyed.
Qed.

(** X11. When every row sits under an id made of its own [document]
    column, it is so again after [processDocument], and after
    [processAllDocuments]. *)
Theorem ingestion_keeps_ids_and_documents_in_step :
  (forall filePath w r w',
     processDocument env filePath w = (r, w') ->
     well_keyed (document_chunks w) -> well_keyed (document_chunks w')) /\
  (forall documentsDir w r w',
     processAllDocuments env documentsDir w = (r, w') ->
     well_keyed (document_chunks w) -> well_keyed (document_chunks w')).
Proof.
  split; [apply processDocument_well_keyed|].
  intros documentsDir w r w'. unfold processAllDocuments.
  destruct (readdirSync env documentsDir) as [files|e]; [|by intros [= _ <-]].
  destruct (process_files env documentsDir _ [] w) as [[r0 results0] w0'] eqn:Hf.
  intros [= _ <-]. by eapply process_files_well_keyed.
Qed.

(** A document reported as processed went through the whole loop. *)
Lemma processed_run filePath w pd w' :
  processDocument env filePath w = (Ok pd, w') ->
  pd_status pd = processed ->
  exists chunks st wl,
    chunks_of env filePath = Ok chunks /\
    loop_run env (basename env filePath ".pdf") chunks 0 initial_locals
      (logged w [VectorCreateIndex (basename env filePath ".pdf") 1536])
      (Ok st) wl /\
    document_chunks w' = document_chunks wl /\
    pd = {| pd_name := basename env filePath ".pdf";
            pd_chunks := length chunks;
            pd_status := processed |}.
Proof.
  intros Hrun Hp.
  destruct (processDocument_run env filePath w) as (rb & w1 & Hb & Hrun').
  rewrite Hrun in Hrun'. injection Hrun' as -> <-.
  destruct Hb as [e Hc|chunks e Hc Hi Hm|chunks e wl Hc Hr Hl
                 |chunks st wl e Hc Hr Hl Hu|chunks st wl ids Hc Hr Hl Hu];
    try done.
  exists chunks, st, wl. repeat split; try done.
  destruct (loop_run_state _ _ _ _ _ _ _ _ Hl) as (-> & _). done.
Qed.

(** X12. After a document with at least one chunk is reported as
    processed, in a table where every row sits under an id made of its
    own [document] column, [getProcessedDocuments] lists the document. *)
Theorem processed_document_is_listed
    (filePath : string) (w : World) (pd : ProcessedDocument) (w1 : World)
    (documents : list string) (w2 : World) :
  well_keyed (document_chunks w) ->
  processDocument env filePath w = (Ok pd, w1) ->
  pd_status pd = processed ->
  (0 < pd_chunks pd)%nat ->
  getProcessedDocuments env w1 = (Ok documents, w2) ->
  pd_name pd ∈ documents.
Proof.
  intros Hwk Hrun Hp Hn Hlist.
  pose proof (processDocument_well_keyed _ _ _ _ Hrun Hwk) as Hwk1.
  destruct (processed_run _ _ _ _ Hrun Hp) as (chunks & st & wl & _ & Hl & Hd & ->).
  simpl in *. destruct chunks as [|chunk rest]; [simpl in Hn; lia|].
  destruct (loop_run_stored _ _ _ _ _ _ _ _ Hl 0%nat chunk eq_refl)
    as (embedding & row & _ & Hrow & _ & _).
  rewrite <- Hd in Hrow. simpl in Hrow.
  destruct (Hwk1 _ _ Hrow) as (i & Hid). apply chunkId_split in Hid as [Hdoc _].
  apply (getProcessedDocuments_run _ _ _ _ Hlist). eauto.
Qed.

(** X13. After an ingestion that got every chunk of a document through
    the loop, whatever it reported, a search whose limit covers the table
    returns, for each chunk whose row its scan reaches, a row with the
    chunk's id and text whose similarity is that of the embedding the
    chunk's text was given. *)
Theorem ingested_chunks_are_found
    (filePath : string) (chunks : list Chunk) (q : list Qc) (K : Z)
    (w : World) (pd : ProcessedDocument) (w1 : World)
    (rows : list SearchResult) (w2 : World) :
  stores_all env filePath chunks ->
  processDocument env filePath w = (Ok pd, w1) ->
  searchSimilarChunks env q (Some K) w1 = (Ok rows, w2) ->
  Z.of_nat (size (document_chunks w1)) <= K ->
  forall j chunk,
    chunks !! j = Some chunk ->
    ivfflat_reaches env q (document_chunks w1)
      (basename env filePath ".pdf" +:+ "-chunk-" +:+ pretty j) = true ->
    exists r embedding,
      r ∈ rows /\
      sr_id r = basename env filePath ".pdf" +:+ "-chunk-" +:+ pretty j /\
      sr_content r = text chunk /\
      ai_embed env "text-embedding-3-small" (text chunk) = Ok embedding /\
      sr_similarity r = one_minus (cosine_distance env embedding q).
Proof.
  intros Hstores Hrun Hsearch HK j chunk Hj Hreach.
  destruct (processDocument_run env filePath w) as (rb & w1' & Hb & Hrun').
  rewrite Hrun in Hrun'. injection Hrun' as _ <-.
  destruct (body_run_complete _ _ _ _ _ _ Hstores Hb) as (st & wl & Hl & _ & -> & _).
  destruct (loop_run_stored _ _ _ _ _ _ _ _ Hl j chunk Hj)
    as (embedding & row & He & Hrow & Hcontent & Hemb).
  simpl in Hrow.
  destruct (searchSimilarChunks_run _ _ _ _ _ _ Hsearch)
    as (_ & [(Hr & _)|((e & ?) & _)]); [|done].
  simpl in Hr. injection Hr as ->.
  exists (select_row env q (chunkId (basename env filePath ".pdf") j, row)), embedding.
  simpl in HK, Hreach. split.
  - apply all_rows_returned; [|done..].
    pose proof (reached_length env q (document_chunks wl)). lia.
  - unfold select_row, distance. simpl. by rewrite Hcontent, Hemb.
Qed.

(** X14. A document that fails before its first chunk costs nothing: when
    it cannot be read, parsed or chunked, [processDocument] returns the
    error record and the world is untouched; when the vector index cannot
    be created, for another reason than its being there already, the one
    call made is that creation and no row is written. *)
Theorem processDocument_fails_early_without_effect (filePath : string) (w : World) :
  (forall e,
     chunks_of env filePath = Throw e ->
     processDocument env filePath w =
       (Ok {| pd_name := basename env filePath ".pdf";
              pd_chunks := 0;
              pd_status := error |}, w)) /\
  (forall chunks e,
     chunks_of env filePath = Ok chunks ->
     vector_createIndex env (basename env filePath ".pdf") 1536 = Throw e ->
     message_includes e "already exists" = false ->
     processDocument env filePath w =
       (Ok {| pd_name := basename env filePath ".pdf";
              pd_chunks := 0;
              pd_status := error |},
        {| document_chunks := document_chunks w;
           trace := trace w ++
                    [VectorCreateIndex (basename env filePath ".pdf") 1536] |})).
Proof.
  split.
  - intros e He.
    destruct (processDocument_run env filePath w) as (rb & w1 & Hb & ->).
    destruct Hb; try congruence. done.
  - intros chunks e Hc Hi Hm.
    destruct (processDocument_run env filePath w) as (rb & w1 & Hb & ->).
    assert (Hnot : ~ index_ready env (basename env filePath ".pdf")).
    { intros [Hok|(e' & He' & Hm')]; congruence. }
    destruct Hb; try congruence; try done.
Qed.

(** X15. There is no rollback: when the embedding of the chunk of index
    [k] fails after the [k] chunks before it were embedded and accepted by
    the table, [processDocument] reports [chunks: 0] and [error], and the
    rows of those [k] chunks are in the table with their text. *)
Theorem processDocument_keeps_rows_of_a_failed_document
    (filePath : string) (chunks : list Chunk) (k : nat) (bad : Chunk)
    (e : JsError) (w : World) :
  chunks_of env filePath = Ok chunks ->
  index_ready env (basename env filePath ".pdf") ->
  chunks !! k = Some bad ->
  ai_embed env "text-embedding-3-small" (text bad) = Throw e ->
  (forall j chunk, (j < k)%nat -> chunks !! j = Some chunk ->
     exists embedding,
       ai_embed env "text-embedding-3-small" (text chunk) = Ok embedding /\
       storable env (documentChunk (basename env filePath ".pdf") j chunk embedding)) ->
  exists w',
    processDocument env filePath w =
      (Ok {| pd_name := basename env filePath ".pdf";
             pd_chunks := 0;
             pd_status := error |}, w') /\
    forall j chunk, (j < k)%nat -> chunks !! j = Some chunk ->
      exists row,
        document_chunks w' !! (basename env filePath ".pdf" +:+ "-chunk-" +:+ pretty j)
        = Some row /\
        row_content row = text chunk.
Proof.
  intros Hc Hready Hbad He Hgood.
  destruct (processDocument_run env filePath w) as (rb & w' & Hb & Hrun).
  exists w'.
  assert (Hrows : forall rl wl,
            loop_run env (basename env filePath ".pdf") chunks 0 initial_locals
              (logged w [VectorCreateIndex (basename env filePath ".pdf") 1536])
              rl wl ->
            (forall st, rl ≠ Ok st) /\
            forall j chunk, (j < k)%nat -> chunks !! j = Some chunk ->
              exists row,
                document_chunks wl !! chunkId (basename env filePath ".pdf") j
                = Some row /\
                row_content row = text chunk).
  { intros rl wl Hl. split.
    - intros st ->.
      destruct (loop_run_stored _ _ _ _ _ _ _ _ Hl k bad Hbad) as (e' & _ & He' & _).
      fold embedding_model in He. congruence.
    - intros j chunk Hj Hchunk.
      by apply (loop_run_partial _ _ _ _ _ _ _ Hl k Hgood j chunk). }
  destruct Hb as [e0 Hc0|chunks0 e0 Hc0 Hi Hm|chunks0 e0 wl Hc0 Hr Hl
                 |chunks0 st wl e0 Hc0 Hr Hl Hu|chunks0 st wl ids Hc0 Hr Hl Hu];
    try congruence.
  - exfalso. destruct Hready as [Hok|(e' & He' & Hm')]; congruence.
  - assert (chunks0 = chunks) as -> by congruence.
    split; [exact Hrun|]. by apply (Hrows _ _ Hl).
  - assert (chunks0 = chunks) as -> by congruence.
    destruct (Hrows _ _ Hl) as [Hno _]. by destruct (Hno st).
  - assert (chunks0 = chunks) as -> by congruence.
    destruct (Hrows _ _ Hl) as [Hno _]. by destruct (Hno st).
Qed.

(** X16. When every chunk of a document gets through the loop, the
    report follows the vector index alone: [processDocument] ends with the
    one call of [vectorStore.upsert], handing it one vector per chunk under
    the chunk's id; it reports the document as processed, with the number
    of its chunks, when that call is accepted, and as [error] with
    [chunks: 0] when it is not; either way the row of every chunk is in
    the table with its text. *)
Theorem processDocument_report_follows_the_vector_index
    (filePath : string) (chunks : list Chunk) (w : World) :
  stores_all env filePath chunks ->
  exists vectors t w',
    processDocument env filePath w =
      (Ok match vector_upsert env (basename env filePath ".pdf") vectors with
          | Ok _ => {| pd_name := basename env filePath ".pdf";
                       pd_chunks := length chunks;
                       pd_status := processed |}
          | Throw _ => {| pd_name := basename env filePath ".pdf";
                          pd_chunks := 0;
                          pd_status := error |}
          end, w') /\
    trace w' = trace w ++ t ++ [VectorUpsert (basename env filePath ".pdf") vectors] /\
    ve_id <$> vectors =
      (fun i : nat => Some (basename env filePath ".pdf" +:+ "-chunk-" +:+ pretty i))
        <$> seq 0 (length chunks) /\
    forall j chunk,
      chunks !! j = Some chunk ->
      exists row,
        document_chunks w' !! (basename env filePath ".pdf" +:+ "-chunk-" +:+ pretty j)
        = Some row /\
        row_content row = text chunk.
Proof.
  intros Hstores.
  destruct (processDocument_run env filePath w) as (rb & w' & Hb & Hrun).
  destruct (body_run_complete _ _ _ _ _ _ Hstores Hb) as (st & wl & Hl & _ & -> & ->).
  destruct (loop_run_trace _ _ _ _ _ _ _ _ Hl) as (t & k & Ht & _).
  destruct (loop_run_state _ _ _ _ _ _ _ _ Hl) as (_ & Hlen & _). simpl in Hlen.
  exists (vectors_of (basename env filePath ".pdf") st),
    (VectorCreateIndex (basename env filePath ".pdf") 1536 :: t),
    (logged wl [VectorUpsert (basename env filePath ".pdf")
                  (vectors_of (basename env filePath ".pdf") st)]).
  split; [|split; [|split]].
  - rewrite Hrun.
    by destruct (vector_upsert env (basename env filePath ".pdf")
                   (vectors_of (basename env filePath ".pdf") st)).
  - simpl. rewrite Ht. simpl. by rewrite <- !app_assoc.
  - rewrite vectors_of_ids, Hlen, <- list_fmap_compose. done.
  - intros j chunk Hj.
    destruct (loop_run_stored _ _ _ _ _ _ _ _ Hl j chunk Hj)
      as (embedding & row & _ & Hrow & Hcontent & _).
    exists row. done.
Qed.

(** X17. [processAllDocuments] returns the empty list and leaves the world
    untouched when the directory cannot be listed, and when none of its
    entries ends in [.pdf]. *)
Theorem processAllDocuments_without_pdf (documentsDir : string) (w : World) :
  (forall e, readdirSync env documentsDir = Throw e ->
             processAllDocuments env documentsDir w = (Ok [], w)) /\
  (forall files,
     readdirSync env documentsDir = Ok files ->
     Forall (fun file => endsWith file ".pdf" = false) files ->
     processAllDocuments env documentsDir w = (Ok [], w)).
Proof.
  split.
  - intros e He. unfold processAllDocuments. by rewrite He.
  - intros files Hdir Hnone. unfold processAllDocuments. rewrite Hdir.
    assert (List.filter (fun file => endsWith file ".pdf") files = []) as ->; [|done].
    clear Hdir. induction Hnone as [|file files Hfile _ IH]; [done|].
    simpl. by rewrite Hfile.
Qed.

End Ingestion.

(** * The string tests of the program *)

Lemma string_app_cons (c : Ascii.ascii) (a b : string) :
  String c a +:+ b = String c (a +:+ b).
Proof. reflexivity. Qed.

Lemma string_length_app (a b : string) :
  String.length (a +:+ b) = (String.length a + String.length b)%nat.
Proof.
  induction a as [|c a IH]; [done|].
  rewrite string_app_cons. simpl. by rewrite IH.
Qed.

Lemma substring_whole (s : string) : String.substring 0 (String.length s) s = s.
Proof. induction s as [|c s IH]; [done|]. simpl. by rewrite IH. Qed.

Lemma substring_after (p s : string) (m : nat) :
  String.substring (String.length p) m (p +:+ s) = String.substring 0 m s.
Proof.
  induction p as [|c p IH]; [done|]. rewrite string_app_cons. simpl. exact IH.
Qed.

(** A string is what comes before a position and what comes from it on. *)
Lemma substring_cut (s : string) :
  forall a b, (a + b)%nat = String.length s ->
              String.substring 0 a s +:+ String.substring a b s = s.
Proof.
  induction s as [|c s IH]; intros a b Hab; simpl in Hab.
  - by assert (a = 0 /\ b = 0)%nat as [-> ->] by lia.
  - destruct a as [|a].
    + simpl in Hab. subst b. simpl. by rewrite substring_whole.
    + simpl. rewrite string_app_cons. by rewrite IH by lia.
Qed.

Lemma prefix_cut (sub s : string) :
  String.prefix sub s = true <-> exists rest, s = sub +:+ rest.
Proof.
  revert s. induction sub as [|c sub IH]; intros s.
  - split; [intros _; by exists s|]. by destruct s.
  - destruct s as [|c' s]; simpl.
    + split; [done|]. by intros [rest ?].
    + destruct (Ascii.ascii_dec c c') as [<-|Hne].
      * rewrite IH. split; intros [rest Hrest]; exists rest.
        -- rewrite string_app_cons. by rewrite Hrest.
        -- rewrite string_app_cons in Hrest. by injection Hrest.
      * split; [done|]. intros [rest Hrest].
        rewrite string_app_cons in Hrest. by injection Hrest as -> _.
Qed.

(** X18. The test [file.endsWith('.pdf')] of the batch, and [endsWith] for
    any suffix, holds of the strings that are some string followed by the
    suffix, and of no other. *)
Theorem endsWith_iff_suffix (s suffix : string) :
  endsWith s suffix = true <-> exists stem, s = stem +:+ suffix.
Proof.
  unfold endsWith. rewrite andb_true_iff, Nat.leb_le, String.eqb_eq. split.
  - intros [Hlen Hsub].
    exists (String.substring 0 (String.length s - String.length suffix) s).
    transitivity
      (String.substring 0 (String.length s - String.length suffix) s
       +:+ String.substring (String.length s - String.length suffix)
             (String.length suffix) s).
    + symmetry. apply substring_cut. lia.
    + by rewrite Hsub.
  - intros [stem ->]. rewrite string_length_app. split; [lia|].
    replace (String.length stem + String.length suffix - String.length suffix)%nat
      with (String.length stem) by lia.
    by rewrite substring_after, substring_whole.
Qed.

(** X19. The error of [createIndex] is let pass when its message has
    [sub] (in the program: [already exists]) somewhere in it, and only
    then; an error without a message is never let pass. *)
Theorem message_includes_iff_infix (e : JsError) (sub : string) :
  message_includes e sub = true <->
  exists before after, message e = Some (before +:+ sub +:+ after).
Proof.
  unfold message_includes. destruct (message e) as [m|];
    [|split; [done|by intros (? & ? & ?)]].
  assert (H : includes m sub = true <-> exists before after, m = before +:+ sub +:+ after).
  { induction m as [|c m IH].
    - change (includes "" sub) with (String.prefix sub "" || false).
      rewrite orb_true_iff, prefix_cut. split.
      + intros [[after ->]|?]; [|done]. by exists "", after.
      + intros (before & after & H). left. destruct before as [|c before].
        * by exists after.
        * by rewrite string_app_cons in H.
    - change (includes (String c m) sub)
        with (String.prefix sub (String c m) || includes m sub).
      rewrite orb_true_iff, prefix_cut, IH. split.
      + intros [[after ->]|(before & after & ->)].
        * by exists "", after.
        * by exists (String c before), after.
      + intros (before & after & H). destruct before as [|c' before].
        * left. by exists after.
        * right. rewrite string_app_cons in H. injection H as -> ->.
          by exists before, after. }
  rewrite H. split; intros (before & after & Heq); exists before, after; congruence.
Qed.

(** * More of the chat path *)

Section ChatPath.

Variable env : Env.

(** What [generateResponse] does when every step goes through. *)
Lemma generateResponse_ok userMessage conversationHistory w q rest completion :
  openai_embeddings_create env query_embedding_model userMessage = Ok (q :: rest) ->
  searchable env q 5 (document_chunks w) ->
  openai_chat_completions_create env
    (prompt env userMessage conversationHistory q (document_chunks w)) = Ok completion ->
  stream_error completion = None ->
  generateResponse env userMessage conversationHistory w =
    (Ok {| response :=
             foldr (fun chunk rest => frame_content chunk +:+ rest) ""
               (frames completion);
           sources := top5 env q (document_chunks w) |},
     {| document_chunks := document_chunks w;
        trace := trace w ++
          [OpenAIEmbeddingsCreate query_embedding_model userMessage;
           PoolQuery (SelectSimilar q 5);
           OpenAIChatCompletionsCreate
             (prompt env userMessage conversationHistory q (document_chunks w))] |}).
Proof.
  intros Hembed Hsearch Hchat Hstream. unfold generateResponse.
  unfold bind at 1, call. unfold bind at 1, lift at 1. rewrite Hembed.
  unfold bind at 1.
  match goal with
  | |- context [searchSimilarChunks env q (Some 5) ?w0] =>
      destruct (searchSimilarChunks env q (Some 5) w0) as [rs ws] eqn:Hrun
  end.
  destruct (searchSimilarChunks_run _ _ _ _ _ _ Hrun) as (-> & [(-> & _)|(_ & Hn)]);
    [|done].
  unfold bind at 1, call. unfold bind at 1, lift at 1.
  match goal with
  | |- context [openai_chat_completions_create env ?p] =>
      change p with (prompt env userMessage conversationHistory q (document_chunks w))
  end.
  rewrite Hchat. unfold bind at 1. rewrite read_stream_run, Hstream. run.
  by rewrite <- !app_assoc.
Qed.

(** A run of [generateResponse] that returns had its search accepted. *)
Lemma generateResponse_searched userMessage conversationHistory w res w' :
  generateResponse env userMessage conversationHistory w = (Ok res, w') ->
  exists q rest,
    openai_embeddings_create env query_embedding_model userMessage = Ok (q :: rest) /\
    searchable env q 5 (document_chunks w).
Proof.
  unfold generateResponse. intros H.
  unfold bind at 1, call in H. unfold bind at 1, lift at 1 in H.
  destruct (openai_embeddings_create env query_embedding_model userMessage)
    as [[|q rest]|e] eqn:Hembed; try done.
  unfold bind at 1 in H.
  match type of H with
  | context [searchSimilarChunks env q (Some 5) ?w0] =>
      destruct (searchSimilarChunks env q (Some 5) w0) as [rs ws] eqn:Hrun
  end.
  destruct (searchSimilarChunks_run _ _ _ _ _ _ Hrun)
    as (_ & [(_ & Hs)|((e & ->) & _)]); [|done].
  exists q, rest. done.
Qed.

(** X20. [generateResponse] returns exactly when the embedding request
    answers with at least one vector, the search for the first of them is
    accepted, the completion request for the one prompt is accepted and
    its stream ends without an error; a stream that fails after some
    frames makes it throw. *)
Theorem generateResponse_returns_iff
    (userMessage : string) (conversationHistory : list ChatMessage) (w : World) :
  (exists res w',
     generateResponse env userMessage conversationHistory w = (Ok res, w')) <->
  (exists q rest completion,
     openai_embeddings_create env "text-embedding-ada-002" userMessage
     = Ok (q :: rest) /\
     searchable env q 5 (document_chunks w) /\
     openai_chat_completions_create env
       (prompt env userMessage conversationHistory q (document_chunks w))
     = Ok completion /\
     stream_error completion = None).
Proof.
  split.
  - intros (res & w' & Hrun).
    destruct (generateResponse_searched _ _ _ _ _ Hrun) as (q & rest & Hembed & Hs).
    destruct (generateResponse_run _ _ _ _ _ _ Hrun)
      as (_ & [(e & ? & _)|[(q' & rest' & e & _ & ? & _)|
               (q' & rest' & rows & Hembed' & -> & _ & [(e & ?)|
                 (completion & Hchat & Hstream & _)])]]); try done.
    assert (q' = q) as -> by congruence.
    exists q, rest, completion. done.
  - intros (q & rest & completion & Hembed & Hs & Hchat & Hstream).
    eexists _, _. by apply (generateResponse_ok _ _ _ q rest completion).
Qed.

(** X21. However it ends, [generateResponse] writes no row, hands no
    chunk to the table, and makes at most three calls, of which the first
    is the embedding of the message; it makes all three when it returns. *)
Theorem generateResponse_reads_only
    (userMessage : string) (conversationHistory : list ChatMessage)
    (w : World) (r : result ChatResult) (w' : World) :
  generateResponse env userMessage conversationHistory w = (r, w') ->
  document_chunks w' = document_chunks w /\
  exists t,
    trace w' = trace w ++
      OpenAIEmbeddingsCreate "text-embedding-ada-002" userMessage :: t /\
    (length t <= 2)%nat /\
    stored_ids t = [] /\
    (forall res, r = Ok res -> length t = 2%nat).
Proof.
  intros Hrun.
  destruct (generateResponse_run _ _ _ _ _ _ Hrun)
    as (Hd & [(e & -> & Ht)|[(q & rest & e & _ & -> & Ht)|
              (q & rest & rows & _ & _ & Ht & _)]]);
    (split; [exact Hd|]); eexists; (split; [exact Ht|]); simpl;
    repeat split; auto; done.
Qed.

(** X22. With an empty table [generateResponse] still asks for a
    completion: it returns no source, and the last message of the prompt
    is the question under an empty context. *)
Theorem generateResponse_on_empty_table
    (userMessage : string) (conversationHistory : list ChatMessage)
    (w : World) (res : ChatResult) (w' : World) :
  document_chunks w = ∅ ->
  generateResponse env userMessage conversationHistory w = (Ok res, w') ->
  sources res = [] /\
  exists q params before,
    trace w' = trace w ++
      [OpenAIEmbeddingsCreate "text-embedding-ada-002" userMessage;
       PoolQuery (SelectSimilar q 5);
       OpenAIChatCompletionsCreate params] /\
    length before = S (length conversationHistory) /\
    cp_messages params =
      before ++
      [{| m_role := "user";
          m_content :=
            "Context from Berkshire Hathaway shareholder letters:" +:+ newline
              +:+ newline +:+ newline +:+ "Question: " +:+ userMessage |}].
Proof.
  intros Hempty Hrun.
  destruct (generateResponse_run _ _ _ _ _ _ Hrun)
    as (_ & [(e & ? & _)|[(q & rest & e & _ & ? & _)|
             (q & rest & rows & _ & Hrows & Ht & [(e & ?)|
               (completion & _ & _ & Hres)])]]); try done.
  injection Hres as ->. unfold nearest, reached in Hrows.
  rewrite Hempty, map_to_list_empty in Hrows.
  simpl in Hrows. subst rows. split; [done|].
  eexists q, _, _. split; [exact Ht|].
  simpl. unfold build_messages. rewrite app_assoc.
  split; [|reflexivity]. simpl. by rewrite length_fmap.
Qed.

End ChatPath.

(** * More of the HTTP service *)

Section Endpoints.

Variable env : Env.

(** The handler on a message that passes the test. *)
Lemma chat_handler_asks_agent req w question :
  body_message (req_body req) = JString question ->
  question ≠ "" ->
  chat_handler env req w =
    match generateResponse env question
            (default [] (body_conversationHistory (req_body req))) w with
    | (Ok res, w') =>
        (Ok {| res_status := 200;
               res_body :=
                 if bool_decide (req_accept req = Some "text/event-stream")
                 then EventStream (response res) true (sources res)
                 else ChatJson (response res) (sources res) |}, w')
    | (Throw e, w') =>
        (Ok {| res_status := 500;
               res_body :=
                 ErrorJson "Failed to generate response"
                           (Some (default "Unknown error" (message e))) |}, w')
    end.
Proof.
  intros Hm Hne. unfold chat_handler, try_catch. rewrite Hm. simpl.
  assert (String.eqb question "" = false) as -> by by apply String.eqb_neq.
  simpl.
  destruct (bool_decide (req_accept req = Some "text/event-stream")); simpl;
    unfold bind;
    destruct (generateResponse env question _ w) as [[res|e] w']; reflexivity.
Qed.

(** X23. The chat handler never throws. It answers 400 to a message that
    is not a non-empty string, and only to such a message; to a non-empty
    string it answers 200 with the response and the sources of the agent
    when the agent returns, and 500 with the message of the error when
    the agent throws, the world being in both cases the one the agent
    left. *)
Theorem chat_handler_answers (req : Request) (w : World) :
  exists resp w',
    chat_handler env req w = (Ok resp, w') /\
    ((res_status resp = 400 /\ w' = w /\
      forall question, body_message (req_body req) = JString question -> question = "") \/
     (exists question res,
        body_message (req_body req) = JString question /\ question ≠ "" /\
        generateResponse env question
          (default [] (body_conversationHistory (req_body req))) w = (Ok res, w') /\
        res_status resp = 200 /\
        payload (res_body resp) = Some (response res, sources res)) \/
     (exists question e,
        body_message (req_body req) = JString question /\ question ≠ "" /\
        generateResponse env question
          (default [] (body_conversationHistory (req_body req))) w = (Throw e, w') /\
        resp = {| res_status := 500;
                  res_body :=
                    ErrorJson "Failed to generate response"
                      (Some (default "Unknown error" (message e))) |})).
Proof.
  destruct (body_message (req_body req)) as [| |b|n|question|] eqn:Hm;
    try (exists invalid_request, w; split;
         [unfold chat_handler, try_catch; rewrite invalid_message;
          [reflexivity|rewrite Hm; by right]
         |left; repeat split; intros ? [=]]).
  destruct (decide (question = "")) as [->|Hne].
  - exists invalid_request, w. split.
    + unfold chat_handler, try_catch. by rewrite Hm.
    + left. repeat split. by intros ? [= <-].
  - rewrite (chat_handler_asks_agent req w question Hm Hne).
    destruct (generateResponse env question _ w) as [[res|e] w'] eqn:Hrun.
    + eexists _, w'. split; [reflexivity|]. right. left.
      exists question, res. repeat split; try done.
      simpl. by destruct (bool_decide _).
    + eexists _, w'. split; [reflexivity|]. right. right.
      exists question, e. done.
Qed.

(** X24. The mode of the answer is framing only: two requests with the
    same body, whatever their [Accept] header, leave the same world, have
    the same status and carry the same response and sources; the event
    stream is one frame, marked done. *)
Theorem chat_streaming_is_framing_only
    (req1 req2 : Request) (w : World) (resp1 resp2 : Response) (w1 w2 : World) :
  req_body req1 = req_body req2 ->
  chat_handler env req1 w = (Ok resp1, w1) ->
  chat_handler env req2 w = (Ok resp2, w2) ->
  w1 = w2 /\
  res_status resp1 = res_status resp2 /\
  payload (res_body resp1) = payload (res_body resp2) /\
  (forall chunk done sources,
     res_body resp1 = EventStream chunk done sources -> done = true).
Proof.
  intros Hbody Hrun1 Hrun2.
  destruct (body_message (req_body req1)) as [| |b|n|question|] eqn:Hm;
    try (assert (Hinv : negb (truthy (body_message (req_body req1)))
                        || negb (String.eqb (typeof (body_message (req_body req1)))
                                   "string") = true)
           by (apply invalid_message; rewrite Hm; by right);
         unfold chat_handler, try_catch in Hrun1, Hrun2;
         rewrite <- Hbody in Hrun2; rewrite Hinv in Hrun1, Hrun2;
         injection Hrun1 as <- <-; injection Hrun2 as <- <-; by repeat split).
  destruct (decide (question = "")) as [->|Hne].
  - unfold chat_handler, try_catch in Hrun1, Hrun2.
    rewrite <- Hbody in Hrun2. rewrite Hm in Hrun1, Hrun2.
    injection Hrun1 as <- <-. injection Hrun2 as <- <-. by repeat split.
  - rewrite (chat_handler_asks_agent req1 w question Hm Hne) in Hrun1.
    rewrite (chat_handler_asks_agent req2 w question) in Hrun2
      by (try rewrite <- Hbody; done).
    rewrite <- Hbody in Hrun2.
    destruct (generateResponse env question _ w) as [[res|e] w'].
    + injection Hrun1 as <- <-. injection Hrun2 as <- <-. simpl.
      repeat split; [by do 2 destruct (bool_decide _)|].
      intros chunk done srcs. by destruct (bool_decide _); intros [=].
    + injection Hrun1 as <- <-. injection Hrun2 as <- <-. by repeat split.
Qed.


Lemma processAllDocuments_returns documentsDir w :
  exists results w', processAllDocuments env documentsDir w = (Ok results, w').
Proof.
  unfold processAllDocuments. destruct (readdirSync env documentsDir); [|eauto].
  destruct (process_files env documentsDir _ [] w) as [[r results] w']. eauto.
Qed.

(** X26. The handler of [POST /api/process-documents] never answers 500:
    without the directory [documents] it answers 400 and touches nothing;
    with it, it answers 200 with the results of [processAllDocuments],
    failed documents included. *)
Theorem process_documents_handler_answers (host : Host) (w : World) :
  exists resp w',
    process_documents_handler env host w = (Ok resp, w') /\
    api_status resp ≠ 500 /\
    (existsSync host (join env (dirname host) "documents") = false ->
     w' = w /\
     resp = {| api_status := 400;
               api_body :=
                 DirectoryMissingJson "Documents directory not found"
                   (join env (dirname host) "documents") |}) /\
    (existsSync host (join env (dirname host) "documents") = true ->
     exists results,
       processAllDocuments env (join env (dirname host) "documents") w
       = (Ok results, w') /\
       resp = {| api_status := 200;
                 api_body := ProcessingJson "Document processing completed" results |}).
Proof.
  unfold process_documents_handler, try_catch.
  destruct (existsSync host (join env (dirname host) "documents")) eqn:Hdir; simpl.
  - destruct (processAllDocuments_returns (join env (dirname host) "documents") w)
      as (results & w' & Hrun).
    unfold bind. rewrite Hrun. run. eexists _, w'. split; [reflexivity|].
    split; [done|]. split; [done|]. intros _. by exists results.
  - run. eexists _, w. split; [reflexivity|]. split; [done|]. split; done.
Qed.

(** X27. [searchSimilarContent] never throws and never touches the table:
    it embeds the query with [text-embedding-3-small], the model of the
    ingestion, asks the vector index for [limit] results, 5 when omitted,
    and returns what the index answers, or the empty list when either
    call fails. *)
Theorem searchSimilarContent_answers
    (query indexName : string) (limit : option Z) (w : World) :
  exists found w',
    searchSimilarContent env query indexName limit w = (Ok found, w') /\
    document_chunks w' = document_chunks w /\
    match ai_embed env "text-embedding-3-small" query with
    | Throw _ =>
        found = [] /\
        trace w' = trace w ++ [AiEmbed "text-embedding-3-small" query]
    | Ok embedding =>
        let q := {| vq_indexName := indexName;
                    vq_queryVector := embedding;
                    vq_topK := default 5 limit;
                    vq_includeVector := false;
                    vq_minScore := 0%Qc |} in
        trace w' = trace w ++ [AiEmbed "text-embedding-3-small" query;
                               VectorQueryCall q] /\
        found = match vector_query env q with
                | Ok results => results
                | Throw _ => []
                end
    end.
Proof.
  unfold searchSimilarContent, try_catch. unfold bind at 1. rewrite embed_run.
  fold embedding_model.
  destruct (ai_embed env embedding_model query) as [embedding|e].
  - unfold vectorStore_query, bind, call, lift. simpl.
    destruct (vector_query env _) as [results|e]; run;
      eexists _, _; (split; [reflexivity|]); simpl;
      rewrite <- app_assoc; done.
  - run. eexists _, _. split; [reflexivity|]. done.
Qed.

End Endpoints.

(** * The further theorems at work on the concrete environment *)

Lemma searchSimilarChunks_returns_the_nearest_witness :
  length (Demo.returned [] (searchSimilarChunks Demo.env Demo.query (Some 1) Demo.once))
  = 1%nat.
Proof.
  assert (Hrun : searchSimilarChunks Demo.env Demo.query (Some 1) Demo.once
                 = (Ok (Demo.returned []
                          (searchSimilarChunks Demo.env Demo.query (Some 1) Demo.once)),
                    (searchSimilarChunks Demo.env Demo.query (Some 1) Demo.once).2))
    by (vm_compute; reflexivity).
  rewrite (proj1 (searchSimilarChunks_returns_the_nearest Demo.env _ _ _ _ _ Hrun)).
  vm_compute. reflexivity.
Defined.

Lemma searchSimilarChunks_distinct_ids_and_read_only_witness :
  NoDup (sr_id <$>
           Demo.returned [] (searchSimilarChunks Demo.env Demo.query None Demo.once)).
Proof.
  assert (Hrun : searchSimilarChunks Demo.env Demo.query None Demo.once
                 = (Ok (Demo.returned []
                          (searchSimilarChunks Demo.env Demo.query None Demo.once)),
                    (searchSimilarChunks Demo.env Demo.query None Demo.once).2))
    by (vm_compute; reflexivity).
  exact (proj2 (proj2 (searchSimilarChunks_distinct_ids_and_read_only
                         Demo.env _ _ _ _ _ Hrun)) _ eq_refl).
Defined.

Lemma storeChunk_inserts_new_row_witness :
  size (document_chunks (storeChunk Demo.env Demo.a_chunk Demo.empty_world).2) = 1%nat.
Proof.
  assert (Hrun : storeChunk Demo.env Demo.a_chunk Demo.empty_world
                 = (Ok tt, (storeChunk Demo.env Demo.a_chunk Demo.empty_world).2))
    by (vm_compute; reflexivity).
  assert (Hnew : document_chunks Demo.empty_world !! chunk_id Demo.a_chunk = None)
    by reflexivity.
  exact (proj1 (proj2 (storeChunk_inserts_new_row Demo.env _ _ _ Hnew Hrun))).
Defined.

Lemma storeChunk_twice_is_once_witness :
  document_chunks
    (storeChunk Demo.env Demo.a_chunk
       (storeChunk Demo.env Demo.a_chunk Demo.stocked_world).2).2
  = document_chunks (storeChunk Demo.env Demo.a_chunk Demo.stocked_world).2.
Proof.
  assert (Hrun1 : storeChunk Demo.env Demo.a_chunk Demo.stocked_world
                  = (Ok tt, (storeChunk Demo.env Demo.a_chunk Demo.stocked_world).2))
    by (vm_compute; reflexivity).
  assert (Hrun2 : storeChunk Demo.env Demo.a_chunk
                    (storeChunk Demo.env Demo.a_chunk Demo.stocked_world).2
                  = (Ok tt,
                     (storeChunk Demo.env Demo.a_chunk
                        (storeChunk Demo.env Demo.a_chunk Demo.stocked_world).2).2))
    by (vm_compute; reflexivity).
  exact (proj2 (storeChunk_twice_is_once Demo.env _ _ _ _ _ Hrun1 Hrun2)).
Defined.

Lemma stored_chunk_is_found_witness :
  exists r,
    r ∈ Demo.returned []
          (searchSimilarChunks Demo.env Demo.query (Some 5)
             (storeChunk Demo.env Demo.a_chunk Demo.stocked_world).2) /\
    sr_id r = "1977-chunk-0" /\
    sr_content r = "float".
Proof.
  assert (Hstore : storeChunk Demo.env Demo.a_chunk Demo.stocked_world
                   = (Ok tt, (storeChunk Demo.env Demo.a_chunk Demo.stocked_world).2))
    by (vm_compute; reflexivity).
  set (w1 := (storeChunk Demo.env Demo.a_chunk Demo.stocked_world).2) in *.
  assert (Hsearch : searchSimilarChunks Demo.env Demo.query (Some 5) w1
                    = (Ok (Demo.returned []
                             (searchSimilarChunks Demo.env Demo.query (Some 5) w1)),
                       (searchSimilarChunks Demo.env Demo.query (Some 5) w1).2))
    by (vm_compute; reflexivity).
  assert (Hsize : Z.of_nat (size (document_chunks w1)) <= 5)
    by (vm_compute; discriminate).
  destruct (stored_chunk_is_found Demo.env _ _ _ _ _ _ _ Hstore Hsearch eq_refl Hsize)
    as (r & Hin & Hid & Hcontent & _).
  exists r. split; [exact Hin|]. split; [exact Hid|exact Hcontent].
Defined.


Lemma chunk_ids_never_collide_witness :
  chunkId "a" 12 ≠ chunkId "a-chunk-1" 2.
Proof.
  intros H. apply chunk_ids_never_collide in H as [H _]. discriminate H.
Defined.

Lemma processDocument_touches_only_its_own_ids_witness :
  document_chunks
    (processDocument Demo.env "docs/1977.pdf" Demo.stocked_world).2
    !! chunkId "1978" 0
  = document_chunks Demo.stocked_world !! chunkId "1978" 0.
Proof.
  assert (Hrun : processDocument Demo.env "docs/1977.pdf" Demo.stocked_world
                 = ((processDocument Demo.env "docs/1977.pdf" Demo.stocked_world).1,
                    (processDocument Demo.env "docs/1977.pdf" Demo.stocked_world).2))
    by (vm_compute; reflexivity).
  apply (proj2 (processDocument_touches_only_its_own_ids Demo.env _ _ _ _ Hrun)).
  vm_compute. discriminate.
Defined.

Lemma processDocument_never_deletes_witness :
  exists row',
    document_chunks (processDocument Demo.env "docs/1977.pdf" Demo.stocked_world).2
      !! "1977-chunk-0" = Some row' /\
    row_page row' = 3.
Proof.
  assert (Hrun : processDocument Demo.env "docs/1977.pdf" Demo.stocked_world
                 = ((processDocument Demo.env "docs/1977.pdf" Demo.stocked_world).1,
                    (processDocument Demo.env "docs/1977.pdf" Demo.stocked_world).2))
    by (vm_compute; reflexivity).
  assert (Hrow : document_chunks Demo.stocked_world !! "1977-chunk-0" = Some Demo.a_row)
    by (vm_compute; reflexivity).
  destruct (processDocument_never_deletes Demo.env _ _ _ _ _ _ Hrun Hrow)
    as (row' & Hrow' & _ & Hpage).
  exists row'. split; [exact Hrow'|exact Hpage].
Defined.

Lemma empty_table_well_keyed : well_keyed (document_chunks Demo.empty_world).
Proof. intros id row H. simpl in H. by rewrite lookup_empty in H. Qed.

Lemma ingestion_keeps_ids_and_documents_in_step_witness :
  well_keyed (document_chunks Demo.once).
Proof.
  assert (Hrun : processDocument Demo.env "docs/1977.pdf" Demo.empty_world
                 = (Ok Demo.processed_1977, Demo.once))
    by (vm_compute; reflexivity).
  exact (proj1 (ingestion_keeps_ids_and_documents_in_step Demo.env)
           _ _ _ _ Hrun empty_table_well_keyed).
Defined.

Lemma processed_document_is_listed_witness :
  "1977" ∈ Demo.returned [] (getProcessedDocuments Demo.env Demo.once).
Proof.
  assert (Hrun : processDocument Demo.env "docs/1977.pdf" Demo.empty_world
                 = (Ok Demo.processed_1977, Demo.once))
    by (vm_compute; reflexivity).
  assert (Hlist : getProcessedDocuments Demo.env Demo.once
                  = (Ok (Demo.returned [] (getProcessedDocuments Demo.env Demo.once)),
                     (getProcessedDocuments Demo.env Demo.once).2))
    by (vm_compute; reflexivity).
  assert (Hn : (0 < pd_chunks Demo.processed_1977)%nat) by (simpl; lia).
  exact (processed_document_is_listed Demo.env _ _ _ _ _ _
           empty_table_well_keyed Hrun eq_refl Hn Hlist).
Defined.

Lemma ingested_chunks_are_found_witness :
  pd_status Demo.failed_1977 = error /\
  exists r,
    r ∈ Demo.returned []
          (searchSimilarChunks Demo.env_upsert_refused Demo.query (Some 5)
             Demo.refused_once) /\
    sr_id r = "1977-chunk-1" /\
    sr_content r = "insurance".
Proof.
  assert (Hstores : stores_all Demo.env_upsert_refused "docs/1977.pdf"
                      Demo.chunks_1977)
    by stores_all_chunks.
  assert (Hrun : processDocument Demo.env_upsert_refused "docs/1977.pdf"
                   Demo.empty_world
                 = (Ok Demo.failed_1977, Demo.refused_once))
    by (vm_compute; reflexivity).
  assert (Hsearch :
    searchSimilarChunks Demo.env_upsert_refused Demo.query (Some 5) Demo.refused_once
    = (Ok (Demo.returned []
             (searchSimilarChunks Demo.env_upsert_refused Demo.query (Some 5)
                Demo.refused_once)),
       (searchSimilarChunks Demo.env_upsert_refused Demo.query (Some 5)
          Demo.refused_once).2))
    by (vm_compute; reflexivity).
  assert (Hsize : Z.of_nat (size (document_chunks Demo.refused_once)) <= 5)
    by (vm_compute; discriminate).
  split; [reflexivity|].
  destruct (ingested_chunks_are_found Demo.env_upsert_refused "docs/1977.pdf"
              Demo.chunks_1977 _ _ _ _ _ _ _ Hstores Hrun Hsearch Hsize
              1%nat _ eq_refl eq_refl)
    as (r & embedding & Hin & Hid & Hcontent & _).
  exists r. split; [exact Hin|]. split; [exact Hid|exact Hcontent].
Defined.

Lemma processDocument_fails_early_without_effect_witness :
  processDocument Demo.env "docs/broken.pdf" Demo.once
  = (Ok {| pd_name := "broken"; pd_chunks := 0; pd_status := error |}, Demo.once) /\
  trace (processDocument Demo.env_index_broken "docs/1977.pdf" Demo.empty_world).2
  = [VectorCreateIndex "1977" 1536].
Proof.
  split.
  - exact (proj1 (processDocument_fails_early_without_effect
                    Demo.env "docs/broken.pdf" Demo.once)
             {| message := Some "Invalid PDF structure" |} eq_refl).
  - rewrite (proj2 (processDocument_fails_early_without_effect
                      Demo.env_index_broken "docs/1977.pdf" Demo.empty_world)
               [{| text := "float"; metadata_page := None |};
                {| text := "insurance"; metadata_page := None |}]
               {| message := Some "SQLITE_BUSY: database is locked" |}
               eq_refl eq_refl eq_refl).
    reflexivity.
Defined.

Lemma processDocument_keeps_rows_of_a_failed_document_witness :
  exists w' row,
    processDocument Demo.env_flaky "docs/1977.pdf" Demo.empty_world
    = (Ok {| pd_name := "1977"; pd_chunks := 0; pd_status := error |}, w') /\
    document_chunks w' !! "1977-chunk-0" = Some row /\
    row_content row = "float".
Proof.
  destruct (processDocument_keeps_rows_of_a_failed_document
              Demo.env_flaky "docs/1977.pdf"
              [{| text := "float"; metadata_page := None |};
               {| text := "insurance"; metadata_page := None |}]
              1%nat {| text := "insurance"; metadata_page := None |}
              Demo.service_down Demo.empty_world)
    as (w' & Hrun & Hrows).
  - reflexivity.
  - left. reflexivity.
  - reflexivity.
  - reflexivity.
  - intros j chunk Hj Hchunk. assert (j = 0%nat) as -> by lia.
    injection Hchunk as <-. eexists. split; [reflexivity|].
    repeat split; vm_compute; reflexivity.
  - destruct (Hrows 0%nat {| text := "float"; metadata_page := None |})
      as (row & Hrow & Hcontent); [lia|reflexivity|].
    exists w', row. split; [exact Hrun|]. split; [exact Hrow|exact Hcontent].
Defined.

Lemma processDocument_report_follows_the_vector_index_witness :
  (exists w',
     processDocument Demo.env_index_exists "docs/1977.pdf" Demo.empty_world
     = (Ok Demo.processed_1977, w')) /\
  (exists w' row,
     processDocument Demo.env_upsert_refused "docs/1977.pdf" Demo.empty_world
     = (Ok Demo.failed_1977, w') /\
     document_chunks w' !! "1977-chunk-1" = Some row /\
     row_content row = "insurance").
Proof.
  assert (Hready : stores_all Demo.env_index_exists "docs/1977.pdf"
                     Demo.chunks_1977)
    by stores_all_chunks.
  assert (Hstores : stores_all Demo.env_upsert_refused "docs/1977.pdf"
                      Demo.chunks_1977)
    by stores_all_chunks.
  split.
  - destruct (processDocument_report_follows_the_vector_index
                Demo.env_index_exists "docs/1977.pdf" Demo.chunks_1977
                Demo.empty_world Hready)
      as (vectors & t & w' & Hrun & _).
    exists w'. exact Hrun.
  - destruct (processDocument_report_follows_the_vector_index
                Demo.env_upsert_refused "docs/1977.pdf" Demo.chunks_1977
                Demo.empty_world Hstores)
      as (vectors & t & w' & Hrun & _ & _ & Hrows).
    destruct (Hrows 1%nat {| text := "insurance"; metadata_page := None |} eq_refl)
      as (row & Hrow & Hcontent).
    exists w', row. split; [exact Hrun|]. split; [exact Hrow|exact Hcontent].
Defined.

Lemma processAllDocuments_without_pdf_witness :
  processAllDocuments Demo.env "elsewhere" Demo.once = (Ok [], Demo.once).
Proof.
  exact (proj1 (processAllDocuments_without_pdf Demo.env "elsewhere" Demo.once)
           {| message := Some "ENOENT: no such file or directory" |} eq_refl).
Defined.

Lemma endsWith_iff_suffix_witness :
  endsWith "1977.pdf" ".pdf" = true /\ ~ exists stem, "1977.PDF" = stem +:+ ".pdf".
Proof.
  split.
  - apply endsWith_iff_suffix. by exists "1977".
  - intros Hstem. apply endsWith_iff_suffix in Hstem. vm_compute in Hstem.
    discriminate Hstem.
Defined.

Lemma message_includes_iff_infix_witness :
  message_includes {| message := Some "Index 1977 already exists" |} "already exists"
  = true.
Proof.
  apply message_includes_iff_infix. by exists "Index 1977 ", "".
Defined.

Lemma generateResponse_returns_iff_witness :
  exists res w', generateResponse Demo.env "float" [] Demo.once = (Ok res, w').
Proof.
  apply generateResponse_returns_iff.
  eexists Demo.query, [], _. split; [reflexivity|]. split; [|split; reflexivity].
  repeat split; first [reflexivity|discriminate].
Defined.

Lemma generateResponse_reads_only_witness :
  document_chunks (generateResponse Demo.env "float" [] Demo.once).2
  = document_chunks Demo.once.
Proof.
  assert (Hrun : generateResponse Demo.env "float" [] Demo.once
                 = ((generateResponse Demo.env "float" [] Demo.once).1,
                    (generateResponse Demo.env "float" [] Demo.once).2))
    by (vm_compute; reflexivity).
  exact (proj1 (generateResponse_reads_only Demo.env _ _ _ _ _ Hrun)).
Defined.

Lemma generateResponse_on_empty_table_witness :
  sources (Demo.returned {| response := ""; sources := [] |}
             (generateResponse Demo.env "float" [] Demo.empty_world)) = [].
Proof.
  assert (Hrun : generateResponse Demo.env "float" [] Demo.empty_world
                 = (Ok (Demo.returned {| response := ""; sources := [] |}
                          (generateResponse Demo.env "float" [] Demo.empty_world)),
                    (generateResponse Demo.env "float" [] Demo.empty_world).2))
    by (vm_compute; reflexivity).
  exact (proj1 (generateResponse_on_empty_table Demo.env "float" []
                  Demo.empty_world _ _ eq_refl Hrun)).
Defined.

Lemma chat_handler_answers_witness :
  exists resp w',
    chat_handler Demo.env_openai_down Demo.question_request Demo.once = (Ok resp, w') /\
    res_status resp = 500.
Proof.
  destruct (chat_handler_answers Demo.env_openai_down Demo.question_request Demo.once)
    as (resp & w' & Hrun & [(_ & _ & Hinvalid)|[(question & res & Hm & _ & Hagent & _)|
                            (question & e & _ & _ & _ & ->)]]).
  - discriminate (Hinvalid "float" eq_refl).
  - injection Hm as <-. vm_compute in Hagent. discriminate Hagent.
  - eexists _, w'. split; [exact Hrun|reflexivity].
Defined.

Lemma chat_streaming_is_framing_only_witness :
  (chat_handler Demo.env Demo.question_request Demo.once).2
  = (chat_handler Demo.env Demo.streamed_request Demo.once).2.
Proof.
  assert (Hrun1 : chat_handler Demo.env Demo.question_request Demo.once
                  = (Ok (Demo.returned invalid_request
                           (chat_handler Demo.env Demo.question_request Demo.once)),
                     (chat_handler Demo.env Demo.question_request Demo.once).2))
    by (vm_compute; reflexivity).
  assert (Hrun2 : chat_handler Demo.env Demo.streamed_request Demo.once
                  = (Ok (Demo.returned invalid_request
                           (chat_handler Demo.env Demo.streamed_request Demo.once)),
                     (chat_handler Demo.env Demo.streamed_request Demo.once).2))
    by (vm_compute; reflexivity).
  exact (proj1 (chat_streaming_is_framing_only Demo.env
                  Demo.question_request Demo.streamed_request Demo.once _ _ _ _
                  eq_refl Hrun1 Hrun2)).
Defined.


Lemma process_documents_handler_answers_witness :
  exists resp,
    process_documents_handler Demo.env Demo.bare_host Demo.once = (Ok resp, Demo.once) /\
    api_status resp = 400.
Proof.
  destruct (process_documents_handler_answers Demo.env Demo.bare_host Demo.once)
    as (resp & w' & Hrun & _ & Hmissing & _).
  destruct (Hmissing eq_refl) as [-> ->].
  eexists. split; [exact Hrun|reflexivity].
Defined.
